(** * kubernetes-scheduler-simulator: the topology pre-processor

    A shallow embedding of [process_openb_dir.py] and the properties its
    specification states about it.

    The program reads two multi-document YAML files from a directory, gives
    every machine record a rack label ([add_rack_labels]), gives every
    [kind: Pod] record one topology spread constraint
    ([add_topology_constraints]) and writes both lists to new files whose
    names carry the parameter used ([process_directory]).

    Modelling choices, all read off the source:

    - A YAML document is a tree ([yaml]).  A mapping is an association list
      in insertion order, as a Python [dict] is and as
      [yaml.dump_all(..., sort_keys=False)] writes it.
    - The records of a list are the documents built by
      [yaml.safe_load_all], one fresh object per document, so two records
      share no sub-object and the in-place mutation of the record at
      position [i] is a functional update at position [i].  A record that
      reaches one anchored mapping by two paths (a YAML alias) is not
      covered: in the tree each path has its own copy.
    - Python statements that mutate an object and may raise are functions
      from the object's state to its new state and an [outcome]
      (the monad [Py]); the state reached when an exception propagates is
      kept, as the mutated objects keep it in Python.
    - Python integers are unbounded: [Z].  [%] is floor modulo, which is
      [Z.modulo] for a non-zero divisor and raises [ZeroDivisionError] for
      zero.  [str] of an integer is its decimal numeral ([pretty]). *)

From Stdlib Require Import Ascii String.
From stdpp Require Import base numbers list strings pretty gmap.

Set Warnings "-register-all".

Local Open Scope string_scope.
Local Open Scope Z_scope.

(** ** Python values and exceptions *)

Inductive yaml : Type :=
| YNull
| YBool (b : bool)
| YInt (n : Z)
| YFloat (lexeme : string)
| YStr (s : string)
| YSeq (items : list yaml)
| YMap (fields : list (string * yaml)).

Inductive exn : Type :=
| AttributeError
| TypeError
| KeyError
| ZeroDivisionError
| OSError
| YAMLError.

Inductive outcome (A : Type) : Type :=
| Return (a : A)
| Raise (e : exn).
Arguments Return {A} a.
Arguments Raise {A} e.

(** A statement or expression running on a mutable state [S]. *)
Definition Py (S A : Type) : Type := S → S * outcome A.

Global Instance py_ret {S} : MRet (Py S) := λ A a s, (s, Return a).

Global Instance py_bind {S} : MBind (Py S) := λ A B k m s,
  match m s with
  | (s', Return a) => k a s'
  | (s', Raise e) => (s', Raise e)
  end.

Definition raise {S A} (e : exn) : Py S A := λ s, (s, Raise e).

(** The outcome of a call that leaves the state alone. *)
Definition pure_call {S A} (r : outcome A) : Py S A := λ s, (s, r).

(** ** Dictionaries in insertion order *)

Module Dict.

Fixpoint get {V} (k : string) (d : list (string * V)) : option V :=
  match d with
  | [] => None
  | (k', v) :: d' => if String.eqb k' k then Some v else get k d'
  end.

(** [d[k] = v]: an existing key keeps its position, a new key goes last. *)
Fixpoint setitem {V} (k : string) (v : V) (d : list (string * V)) :
    list (string * V) :=
  match d with
  | [] => [(k, v)]
  | (k', v') :: d' =>
      if String.eqb k' k then (k', v) :: d' else (k', v') :: setitem k v d'
  end.

(** [d.setdefault(k, v)], for its effect on [d]. *)
Definition setdefault {V} (k : string) (v : V) (d : list (string * V)) :
    list (string * V) :=
  match get k d with
  | Some _ => d
  | None => setitem k v d
  end.

Definition keys {V} (d : list (string * V)) : list string := d.*1.

End Dict.

(** ** Operations on objects *)

(** [obj.setdefault(k, v)]: only a [dict] has the method. *)
Definition py_setdefault (k : string) (v : yaml) : Py yaml unit := λ obj,
  match obj with
  | YMap d => (YMap (Dict.setdefault k v d), Return ())
  | _ => (obj, Raise AttributeError)
  end.

(** [obj[k] = v] with a string [k]: a list wants an integer index, the
    scalars support no item assignment. *)
Definition py_setitem (k : string) (v : yaml) : Py yaml unit := λ obj,
  match obj with
  | YMap d => (YMap (Dict.setitem k v d), Return ())
  | _ => (obj, Raise TypeError)
  end.

(** [obj.get(k)]: [None] when the key is missing. *)
Definition py_get (k : string) : Py yaml (option yaml) := λ obj,
  match obj with
  | YMap d => (obj, Return (Dict.get k d))
  | _ => (obj, Raise AttributeError)
  end.

(** [obj[k].op]: [obj[k]] is evaluated and [op] mutates that object, which
    [obj] holds, so [obj] sees the mutation. *)
Definition on_item {A} (k : string) (op : Py yaml A) : Py yaml A := λ obj,
  match obj with
  | YMap d =>
      match Dict.get k d with
      | Some m => let '(m', r) := op m in (YMap (Dict.setitem k m' d), r)
      | None => (obj, Raise KeyError)
      end
  | _ => (obj, Raise TypeError)
  end.

(** ** [add_rack_labels] *)

(** [f"rack-{rack_number % rack_mod}"] *)
Definition rack_fstring {S} (rack_number rack_mod : Z) : Py S string :=
  if rack_mod =? 0 then raise ZeroDivisionError
  else mret ("rack-" +:+ pretty (rack_number `mod` rack_mod)).

(** The body of the loop, lines 12 to 14, on one [node]. *)
Definition label_node (rack_number rack_mod : Z) : Py yaml unit :=
  py_setdefault "metadata" (YMap []) ;;
  on_item "metadata" (py_setdefault "labels" (YMap [])) ;;
  value ← rack_fstring rack_number rack_mod;
  on_item "metadata"
    (on_item "labels"
       (py_setitem "topology.kubernetes.io/rack" (YStr value))).

(** [for node in nodes: ...; rack_number += 1] *)
Fixpoint label_nodes (rack_number rack_mod : Z) (nodes : list yaml) :
    list yaml * outcome unit :=
  match nodes with
  | [] => ([], Return ())
  | node :: rest =>
      match label_node rack_number rack_mod node with
      | (node', Return _) =>
          let '(rest', r) := label_nodes (rack_number + 1) rack_mod rest in
          (node' :: rest', r)
      | (node', Raise e) => (node' :: rest, Raise e)
      end
  end.

(** [nodes] is mutated in place and returned. *)
Definition add_rack_labels (nodes : list yaml) (rack_mod : Z) :
    list yaml * outcome unit :=
  label_nodes 0 rack_mod nodes.

(** ** [add_topology_constraints] *)

(** [value != "Pod"] for what [pod.get("kind")] gave. *)
Definition ne_str (value : option yaml) (s : string) : bool :=
  match value with
  | Some (YStr s') => negb (String.eqb s' s)
  | _ => true
  end.

(** The one-element list of lines 26 to 31. *)
Definition spread_constraints (topology_key : string) (max_skew : Z)
    (when_unsatisfiable : string) : yaml :=
  YSeq [YMap [("maxSkew", YInt max_skew);
              ("topologyKey", YStr topology_key);
              ("whenUnsatisfiable", YStr when_unsatisfiable);
              ("labelSelector", YMap [])]].

(** The body of the loop, lines 23 to 31, on one [pod]. *)
Definition constrain_pod (topology_key : string) (max_skew : Z)
    (when_unsatisfiable : string) : Py yaml unit :=
  kind ← py_get "kind";
  if ne_str kind "Pod" then mret ()
  else
    py_setdefault "spec" (YMap []) ;;
    on_item "spec"
      (py_setitem "topologySpreadConstraints"
         (spread_constraints topology_key max_skew when_unsatisfiable)).

(** [for pod in pods: ...] *)
Fixpoint constrain_pods (topology_key : string) (max_skew : Z)
    (when_unsatisfiable : string) (pods : list yaml) :
    list yaml * outcome unit :=
  match pods with
  | [] => ([], Return ())
  | pod :: rest =>
      match constrain_pod topology_key max_skew when_unsatisfiable pod with
      | (pod', Return _) =>
          let '(rest', r) :=
            constrain_pods topology_key max_skew when_unsatisfiable rest in
          (pod' :: rest', r)
      | (pod', Raise e) => (pod' :: rest, Raise e)
      end
  end.

(** The defaults of the keyword parameters, line 21. *)
Definition default_topology_key : string := "topology.kubernetes.io/rack".
Definition default_max_skew : Z := 1.
Definition default_when_unsatisfiable : string := "ScheduleAnyway".

(** [pods] is mutated in place and returned. *)
Definition add_topology_constraints (pods : list yaml) (topology_key : string)
    (max_skew : Z) (when_unsatisfiable : string) : list yaml * outcome unit :=
  constrain_pods topology_key max_skew when_unsatisfiable pods.

(** ** Paths and the file system *)

Record Path : Type := { parent : string; name : string }.

(** [str(path)], for a normalised [parent]. *)
Definition path_str (p : Path) : string := parent p +:+ "/" +:+ name p.

Definition with_name (p : Path) (new_name : string) : Path :=
  {| parent := parent p; name := new_name |}.

(** [s.rfind(c)], [None] for Python's [-1]. *)
Fixpoint rfind (c : Ascii.ascii) (s : string) : option nat :=
  match s with
  | EmptyString => None
  | String a s' =>
      match rfind c s' with
      | Some i => Some (S i)
      | None => if Ascii.eqb a c then Some O else None
      end
  end.

(** [PurePath.stem]: the name up to its last dot, unless that dot is the
    first or the last character. *)
Definition stem (p : Path) : string :=
  match rfind "."%char (name p) with
  | Some i =>
      if ((0 <? i) && (i <? String.length (name p) - 1))%nat
      then String.substring 0 i (name p)
      else name p
  | None => name p
  end.

(** A pattern [prefix*suffix] against one name. *)
Fixpoint strip_prefix (prefix s : string) : option string :=
  match prefix, s with
  | EmptyString, _ => Some s
  | String a prefix', String b s' =>
      if Ascii.eqb a b then strip_prefix prefix' s' else None
  | String _ _, EmptyString => None
  end.

Fixpoint ends_with (suffix s : string) : bool :=
  String.eqb s suffix ||
  match s with
  | EmptyString => false
  | String _ s' => ends_with suffix s'
  end.

Definition glob_match (prefix suffix file_name : string) : bool :=
  match strip_prefix prefix file_name with
  | Some rest => ends_with suffix rest
  | None => false
  end.

(** Directories with the names of their entries in enumeration order, and
    the text of the regular files. *)
Record filesystem : Type := {
  fs_dirs : gmap string (list string);
  fs_files : gmap (string * string) string
}.

(** What the process can change: the file system and its standard output. *)
Record world : Type := { fs : filesystem; stdout : list string }.

Definition print (line : string) : Py world unit := λ w,
  ({| fs := fs w; stdout := (stdout w ++ [line])%list |}, Return ()).

Definition is_dir (dir : string) : Py world bool := λ w,
  (w, Return (bool_decide (is_Some (fs_dirs (fs w) !! dir)))).

(** [dir.glob(prefix + "*" + suffix)]: the matching entries of [dir] in
    enumeration order. *)
Definition glob (dir prefix suffix : string) (w : world) : list Path :=
  (λ n, {| parent := dir; name := n |}) <$>
  filter (λ n, glob_match prefix suffix n = true)
    (default [] (fs_dirs (fs w) !! dir)).

(** [next(dir.glob(prefix + "*" + suffix), None)] *)
Definition glob_first (dir prefix suffix : string) : Py world (option Path) :=
  λ w, (w, Return (head (glob dir prefix suffix w))).

(** [open(p, "r")] and reading all of it. *)
Definition read_text (p : Path) : Py world string := λ w,
  match fs_files (fs w) !! (parent p, name p) with
  | Some text => (w, Return text)
  | None => (w, Raise OSError)
  end.

(** [open(p, "w")] and writing [text]: the file is created or replaced;
    without the parent directory the call raises.  A directory that refuses
    the write is not modelled. *)
Definition write_text (p : Path) (text : string) : Py world unit := λ w,
  match fs_dirs (fs w) !! parent p with
  | Some entries =>
      let entries' :=
        if bool_decide (name p ∈ entries) then entries
        else (entries ++ [name p])%list in
      ({| fs := {| fs_dirs := <[parent p := entries']> (fs_dirs (fs w));
                   fs_files :=
                     <[(parent p, name p) := text]> (fs_files (fs w)) |};
          stdout := stdout w |}, Return ())
  | None => (w, Raise OSError)
  end.

(** A computation on a list that the caller holds in a local variable. *)
Definition run_local {S A} (m : list yaml * outcome A) : Py S (list yaml) :=
  λ s,
  match m with
  | (l, Return _) => (s, Return l)
  | (_, Raise e) => (s, Raise e)
  end.

(** ** [process_directory] and the command line *)

Section Orchestrator.

(** PyYAML: [list(yaml.safe_load_all(f))] on the text of a file, and the
    text [yaml.dump_all(docs, f, sort_keys=False)] writes. *)
Variable safe_load_all : string → outcome (list yaml).
Variable dump_all : list yaml → string.

Definition load (p : Path) : Py world (list yaml) :=
  text ← read_text p;
  pure_call (safe_load_all text).

Definition process_directory (input_dir : string) (rack_mod max_skew : Z) :
    Py world unit :=
  let input_path := input_dir in
  ok ← is_dir input_path;
  if negb ok then
    print ("❌ " +:+ input_dir +:+ " is not a valid directory")
  else
    node_file ← glob_first input_path "openb_node_list_" ".yaml";
    pod_file ← glob_first input_path "openb_pod_list_" ".yaml";
    match node_file, pod_file with
    | Some node_file, Some pod_file =>
        print ("✅ Found Node YAML: " +:+ path_str node_file) ;;
        print ("✅ Found Pod YAML:  " +:+ path_str pod_file) ;;
        nodes ← load node_file;
        pods ← load pod_file;
        nodes_with_racks ← run_local (add_rack_labels nodes rack_mod);
        let node_output_file :=
          with_name node_file
            (stem node_file +:+ "_with_rack-quantity" +:+ pretty rack_mod
               +:+ ".yaml") in
        write_text node_output_file (dump_all nodes_with_racks) ;;
        print ("✅ Modified Node YAML → " +:+ path_str node_output_file) ;;
        pods_with_constraints ←
          run_local
            (add_topology_constraints pods "topology.kubernetes.io/rack"
               max_skew default_when_unsatisfiable);
        let pod_output_file :=
          with_name pod_file
            (stem pod_file +:+ "_with_skew-value" +:+ pretty max_skew
               +:+ ".yaml") in
        write_text pod_output_file (dump_all pods_with_constraints) ;;
        print ("✅ Modified Pod YAML → " +:+ path_str pod_output_file)
    | _, _ =>
        print ("❌ Could not find expected files in " +:+ input_dir) ;;
        print "   Expected:" ;;
        print "     openb_node_list_*.yaml" ;;
        print "     openb_pod_list_*.yaml"
    end.

(** What [parser.parse_args()] returns: [type=int] converts the two
    options and nothing restricts their range. *)
Record Namespace : Type := {
  directory : string;
  rack_mod : Z;
  max_skew : Z
}.

Definition default_rack_mod : Z := 10.

Definition main (args : Namespace) : Py world unit :=
  process_directory (directory args) (rack_mod args) (max_skew args).

End Orchestrator.

(** ** Vocabulary of the specification *)

(** The value at a path of keys. *)
Fixpoint lookup_path (path : list string) (doc : yaml) : option yaml :=
  match path with
  | [] => Some doc
  | k :: path' =>
      match doc with
      | YMap d =>
          match Dict.get k d with
          | Some v => lookup_path path' v
          | None => None
          end
      | _ => None
      end
  end.

(** Two paths part ways: at some depth they name different keys. *)
Fixpoint diverge (p q : list string) : bool :=
  match p, q with
  | k :: p', k' :: q' => if String.eqb k k' then diverge p' q' else true
  | _, _ => false
  end.

(** The mapping under [k], empty when [k] is missing. *)
Definition sub_dict (k : string) (d : list (string * yaml)) :
    list (string * yaml) :=
  match Dict.get k d with
  | Some (YMap m) => m
  | _ => []
  end.

(** What [setdefault] accepts at a key: nothing there, or a mapping. *)
Definition absent_or_dict (value : option yaml) : bool :=
  match value with
  | None | Some (YMap _) => true
  | Some _ => false
  end.

(** A machine record: a mapping whose [metadata], when present, is a
    mapping whose [labels], when present, is a mapping. *)
Definition machine_record (node : yaml) : bool :=
  match node with
  | YMap d =>
      match Dict.get "metadata" d with
      | None => true
      | Some (YMap md) => absent_or_dict (Dict.get "labels" md)
      | Some _ => false
      end
  | _ => false
  end.

(** The rack label key and the place of the label in a record. *)
Definition rack_label_key : string := "topology.kubernetes.io/rack".
Definition rack_label_path : list string :=
  ["metadata"; "labels"; rack_label_key].

(** The rack label value a record carries. *)
Definition rack_label (node : yaml) : option string :=
  match lookup_path rack_label_path node with
  | Some (YStr s) => Some s
  | _ => None
  end.

(** The distinct rack label values over a sequence. *)
Definition rack_values (nodes : list yaml) : gset string :=
  list_to_set (omap rack_label nodes).

(** The record is a workload: its [kind] is ["Pod"]. *)
Definition is_pod (pod : yaml) : bool :=
  match pod with
  | YMap d => negb (ne_str (Dict.get "kind" d) "Pod")
  | _ => false
  end.

(** A workload-list record: a mapping, and when it is a workload its [spec],
    when present, is a mapping. *)
Definition workload_record (pod : yaml) : bool :=
  match pod with
  | YMap d => if is_pod pod then absent_or_dict (Dict.get "spec" d) else true
  | _ => false
  end.

(** The place of the spread-constraints field in a record. *)
Definition spread_constraints_path : list string :=
  ["spec"; "topologySpreadConstraints"].

(** The record [YMap d] with the rack label [value] written. *)
Definition labelled (value : string) (d : list (string * yaml)) : yaml :=
  let md := sub_dict "metadata" d in
  let lb := sub_dict "labels" md in
  YMap (Dict.setitem "metadata"
          (YMap (Dict.setitem "labels"
                   (YMap (Dict.setitem rack_label_key (YStr value) lb)) md))
          d).

(** The record [YMap d] with [constraints] as its spread-constraints
    field. *)
Definition constrained (constraints : yaml) (d : list (string * yaml)) :
    yaml :=
  YMap (Dict.setitem "spec"
          (YMap (Dict.setitem "topologySpreadConstraints" constraints
                   (sub_dict "spec" d)))
          d).

(** The value is a mapping. *)
Definition is_dict (value : yaml) : bool :=
  match value with YMap _ => true | _ => false end.

(** The labels mapping of a record, empty when there is none. *)
Definition labels_of (node : yaml) : list (string * yaml) :=
  match node with
  | YMap d => sub_dict "labels" (sub_dict "metadata" d)
  | _ => []
  end.

(** ** The scenario of the specification

    A directory with [openb_node_list_v1.yaml] (three machine records) and
    [openb_pod_list_v1.yaml] (two workloads and one record of another
    kind), modulus 2 and skew bound 3. *)

Definition sample_nodes : list yaml :=
  [YMap [("apiVersion", YStr "v1"); ("kind", YStr "Node");
         ("metadata",
          YMap [("name", YStr "node-0");
                ("labels",
                 YMap [("kubernetes.io/hostname", YStr "node-0");
                       ("topology.kubernetes.io/rack", YStr "rack-7")])])];
   YMap [("kind", YStr "Node");
         ("metadata", YMap [("name", YStr "node-1")])];
   YMap [("kind", YStr "Node")]].

Definition sample_service : yaml :=
  YMap [("kind", YStr "Service");
        ("spec",
         YMap [("topologySpreadConstraints",
                YSeq [YMap [("maxSkew", YInt 9)]])])].

Definition sample_pods : list yaml :=
  [YMap [("kind", YStr "Pod");
         ("metadata", YMap [("name", YStr "pod-0")]);
         ("spec",
          YMap [("containers", YSeq []);
                ("topologySpreadConstraints",
                 YSeq [YMap [("maxSkew", YInt 9)];
                       YMap [("maxSkew", YInt 8)]])])];
   YMap [("kind", YStr "Pod")];
   sample_service].

(** A stand-in for PyYAML on the two texts of the scenario. *)
Definition sample_load (text : string) : outcome (list yaml) :=
  if String.eqb text "machines" then Return sample_nodes
  else if String.eqb text "workloads" then Return sample_pods
  else Raise YAMLError.

Definition sample_dump (docs : list yaml) : string :=
  pretty (length docs) +:+ " documents".

Definition sample_world : world :=
  {| fs :=
       {| fs_dirs :=
            {[ "data" := ["openb_node_list_v1.yaml";
                          "notes.txt";
                          "openb_pod_list_v1.yaml"] ]};
          fs_files :=
            {[ ("data", "openb_node_list_v1.yaml") := "machines";
               ("data", "notes.txt") := "";
               ("data", "openb_pod_list_v1.yaml") := "workloads" ]} |};
     stdout := [] |}.

(** The same directory without its workload list. *)
Definition sample_world_no_pods : world :=
  {| fs :=
       {| fs_dirs := {[ "data" := ["openb_node_list_v1.yaml"] ]};
          fs_files := {[ ("data", "openb_node_list_v1.yaml") := "machines" ]} |};
     stdout := [] |}.

Definition sample_node_file : Path :=
  {| parent := "data"; name := "openb_node_list_v1.yaml" |}.

Definition sample_pod_file : Path :=
  {| parent := "data"; name := "openb_pod_list_v1.yaml" |}.

(** How the body of the labelling loop ends on one record: the two
    [setdefault] calls come first, then the f-string, then the store. *)
Definition label_outcome (rack_mod : Z) (node : yaml) : outcome unit :=
  match node with
  | YMap d =>
      match Dict.get "metadata" d with
      | None => if rack_mod =? 0 then Raise ZeroDivisionError else Return ()
      | Some (YMap md) =>
          if rack_mod =? 0 then Raise ZeroDivisionError
          else if absent_or_dict (Dict.get "labels" md) then Return ()
          else Raise TypeError
      | Some _ => Raise AttributeError
      end
  | _ => Raise AttributeError
  end.

(** How the body of the injection loop ends on one record. *)
Definition constrain_outcome (pod : yaml) : outcome unit :=
  match pod with
  | YMap d =>
      if is_pod pod && negb (absent_or_dict (Dict.get "spec" d))
      then Raise TypeError else Return ()
  | _ => Raise AttributeError
  end.

(** A loop ends as the first of its rounds that raises, or returns. *)
Fixpoint first_raise (rounds : list (outcome unit)) : outcome unit :=
  match rounds with
  | [] => Return ()
  | Return _ :: rounds' => first_raise rounds'
  | Raise e :: _ => Raise e
  end.

(** [k in d] *)
Definition has_key {V} (k : string) (d : list (string * V)) : bool :=
  match Dict.get k d with
  | Some _ => true
  | None => false
  end.

(** The names of a directory after [open(dir / file_name, "w")]. *)
Definition listed (file_name : string) (entries : list string) :
    list string :=
  if bool_decide (file_name ∈ entries) then entries
  else (entries ++ [file_name])%list.

(** The directory of the scenario with a machine list that is no YAML. *)
Definition sample_world_unreadable : world :=
  {| fs :=
       {| fs_dirs :=
            {[ "data" := ["openb_node_list_v1.yaml";
                          "openb_pod_list_v1.yaml"] ]};
          fs_files :=
            {[ ("data", "openb_node_list_v1.yaml") := "- : - :";
               ("data", "openb_pod_list_v1.yaml") := "workloads" ]} |};
     stdout := [] |}.

(** A stand-in for PyYAML where the workload list holds a workload whose
    spec is null. *)
Definition sample_load_null_spec (text : string) : outcome (list yaml) :=
  if String.eqb text "machines" then Return sample_nodes
  else if String.eqb text "workloads"
       then Return [YMap [("kind", YStr "Pod"); ("spec", YNull)]]
       else Raise YAMLError.

(** * Properties *)

(** ** Dictionaries *)

Module DictFacts.
Import Dict.

Section Facts.
Context {V : Type}.
Implicit Types (k : string) (v : V) (d : list (string * V)).

Lemma get_setitem_eq k v d : get k (setitem k v d) = Some v.
Proof.
  induction d as [|[k' v'] d IH]; simpl.
  - by rewrite String.eqb_refl.
  - destruct (String.eqb_spec k' k) as [->|Hne]; simpl.
    + by rewrite String.eqb_refl.
    + by destruct (String.eqb_spec k' k).
Qed.

Lemma get_setitem_ne k k' v d : k ≠ k' → get k' (setitem k v d) = get k' d.
Proof.
  intros Hne. induction d as [|[k0 v0] d IH]; simpl.
  - by destruct (String.eqb_spec k k').
  - destruct (String.eqb_spec k0 k) as [->|Hk]; simpl.
    + by destruct (String.eqb_spec k k').
    + by rewrite IH.
Qed.

Lemma setitem_setitem k v w d : setitem k v (setitem k w d) = setitem k v d.
Proof.
  induction d as [|[k' v'] d IH]; simpl.
  - by rewrite String.eqb_refl.
  - destruct (String.eqb_spec k' k) as [->|Hne]; simpl.
    + by rewrite String.eqb_refl.
    + destruct (String.eqb_spec k' k); [done|]. by rewrite IH.
Qed.

Lemma setitem_get_id k v d : get k d = Some v → setitem k v d = d.
Proof.
  induction d as [|[k' v'] d IH]; simpl; [done|].
  destruct (String.eqb_spec k' k) as [->|Hne].
  - by intros [= ->].
  - intros H. by rewrite IH.
Qed.

Lemma length_setitem_some k v d :
  is_Some (get k d) → length (setitem k v d) = length d.
Proof.
  induction d as [|[k' v'] d IH]; simpl.
  - by intros [? ?].
  - destruct (String.eqb_spec k' k); simpl; [done|]. intros H. by rewrite IH.
Qed.

Lemma keys_setitem_some k v d :
  is_Some (get k d) → keys (setitem k v d) = keys d.
Proof.
  unfold keys. induction d as [|[k' v'] d IH]; csimpl.
  - by intros [? ?].
  - destruct (String.eqb_spec k' k); csimpl; [done|]. intros H. by rewrite IH.
Qed.

Lemma keys_setitem_none k v d :
  get k d = None → keys (setitem k v d) = (keys d ++ [k])%list.
Proof.
  unfold keys. induction d as [|[k' v'] d IH]; csimpl; [done|].
  destruct (String.eqb_spec k' k); csimpl; [done|]. intros H. by rewrite IH.
Qed.

Lemma get_setdefault_some k v w d :
  get k d = Some w → get k (setdefault k v d) = Some w.
Proof. unfold setdefault. intros H. by rewrite H. Qed.

Lemma get_setdefault_none k v d :
  get k d = None → get k (setdefault k v d) = Some v.
Proof. unfold setdefault. intros H. rewrite H. apply get_setitem_eq. Qed.

Lemma get_setdefault_ne k k' v d :
  k ≠ k' → get k' (setdefault k v d) = get k' d.
Proof.
  intros Hne. unfold setdefault. destruct (get k d); [done|].
  by apply get_setitem_ne.
Qed.

End Facts.
End DictFacts.

(** ** One record *)

Import DictFacts.

Ltac py_unfold :=
  unfold mbind, py_bind, mret, py_ret, raise, pure_call,
    py_setdefault, py_setitem, py_get, on_item in *.

Lemma label_node_ok i R d :
  machine_record (YMap d) = true → R ≠ 0 →
  label_node i R (YMap d)
  = (labelled ("rack-" +:+ pretty (i `mod` R)) d, Return ()).
Proof.
  intros Hrec HR. unfold label_node, rack_fstring, labelled, sub_dict.
  py_unfold. simpl in *.
  destruct (Z.eqb_spec R 0) as [|_]; [done|].
  unfold Dict.setdefault.
  destruct (Dict.get "metadata" d) as [[| | | | | |md]|] eqn:Hmd; try done.
  - rewrite Hmd.
    destruct (Dict.get "labels" md) as [[| | | | | |lb]|] eqn:Hlb; try done.
    + rewrite (setitem_get_id _ _ _ Hmd), Hmd, Hlb. done.
    + rewrite get_setitem_eq, get_setitem_eq, !setitem_setitem. done.
  - rewrite get_setitem_eq. simpl. rewrite get_setitem_eq. simpl.
    by rewrite !setitem_setitem.
Qed.

(** *** How the body of [add_rack_labels] ends when it raises *)

Lemma label_node_not_dict i R node :
  is_dict node = false → label_node i R node = (node, Raise AttributeError).
Proof. by destruct node. Qed.

Lemma label_node_bad_metadata i R d m :
  Dict.get "metadata" d = Some m → is_dict m = false →
  label_node i R (YMap d) = (YMap d, Raise AttributeError).
Proof.
  intros Hmd Hm. unfold label_node. py_unfold. simpl.
  unfold Dict.setdefault. rewrite Hmd, Hmd.
  destruct m; try done; simpl; by rewrite (setitem_get_id _ _ _ Hmd).
Qed.

Lemma label_node_bad_labels i R d md l :
  Dict.get "metadata" d = Some (YMap md) → Dict.get "labels" md = Some l →
  is_dict l = false →
  label_node i R (YMap d)
  = (YMap d, Raise (if R =? 0 then ZeroDivisionError else TypeError)).
Proof.
  intros Hmd Hlb Hl. unfold label_node, rack_fstring. py_unfold. simpl.
  unfold Dict.setdefault. rewrite Hmd, Hmd, Hlb.
  rewrite (setitem_get_id _ _ _ Hmd).
  destruct (R =? 0); simpl; [done|]. rewrite Hmd, Hlb.
  destruct l; try done; simpl;
    by rewrite (setitem_get_id _ _ _ Hlb), (setitem_get_id _ _ _ Hmd).
Qed.

Lemma label_node_zero_labels i d md lb :
  Dict.get "metadata" d = Some (YMap md) →
  Dict.get "labels" md = Some (YMap lb) →
  label_node i 0 (YMap d) = (YMap d, Raise ZeroDivisionError).
Proof.
  intros Hmd Hlb. unfold label_node, rack_fstring. py_unfold. simpl.
  unfold Dict.setdefault. rewrite Hmd, Hmd, Hlb.
  by rewrite (setitem_get_id _ _ _ Hmd).
Qed.

Lemma label_node_zero_no_labels i d md :
  Dict.get "metadata" d = Some (YMap md) → Dict.get "labels" md = None →
  label_node i 0 (YMap d)
  = (YMap (Dict.setitem "metadata"
             (YMap (Dict.setitem "labels" (YMap []) md)) d),
     Raise ZeroDivisionError).
Proof.
  intros Hmd Hlb. unfold label_node, rack_fstring. py_unfold. simpl.
  unfold Dict.setdefault. by rewrite Hmd, Hmd, Hlb.
Qed.

Lemma label_node_zero_no_metadata i d :
  Dict.get "metadata" d = None →
  label_node i 0 (YMap d)
  = (YMap (Dict.setitem "metadata" (YMap [("labels", YMap [])]) d),
     Raise ZeroDivisionError).
Proof.
  intros Hmd. unfold label_node, rack_fstring. py_unfold. simpl.
  unfold Dict.setdefault. rewrite Hmd, get_setitem_eq. simpl.
  by rewrite setitem_setitem.
Qed.

Lemma sub_dict_setitem k m d :
  sub_dict k (Dict.setitem k (YMap m) d) = m.
Proof. unfold sub_dict. by rewrite get_setitem_eq. Qed.

(** Writing a label on a labelled record replaces the label. *)
Lemma labelled_again v v' d :
  ∃ d', labelled v d = YMap d' ∧ labelled v' d' = labelled v' d ∧
        machine_record (YMap d') = true.
Proof.
  eexists. split; [reflexivity|]. unfold labelled, machine_record.
  rewrite !sub_dict_setitem, !setitem_setitem, !get_setitem_eq. done.
Qed.

Lemma label_node_idem_ok i R d :
  machine_record (YMap d) = true → R ≠ 0 →
  label_node i R (label_node i R (YMap d)).1 = label_node i R (YMap d).
Proof.
  intros Hrec HR. rewrite label_node_ok by done. simpl.
  destruct (labelled_again ("rack-" +:+ pretty (i `mod` R))
              ("rack-" +:+ pretty (i `mod` R)) d) as (d' & -> & Heq & Hrec').
  by rewrite label_node_ok, Heq.
Qed.

(** Running the body again on the record it left changes nothing more,
    also when it raised. *)
Lemma label_node_idem i R node :
  label_node i R (label_node i R node).1 = label_node i R node.
Proof.
  destruct node as [| | | | | |d]; try done.
  destruct (Dict.get "metadata" d) as [m|] eqn:Hmd.
  - destruct (is_dict m) eqn:Hm.
    2:{ by rewrite !(label_node_bad_metadata _ _ _ _ Hmd Hm). }
    destruct m as [| | | | | |md]; try done.
    destruct (Dict.get "labels" md) as [l|] eqn:Hlb.
    + destruct (is_dict l) eqn:Hl.
      2:{ by rewrite !(label_node_bad_labels _ _ _ _ _ Hmd Hlb Hl). }
      destruct l as [| | | | | |lb]; try done.
      destruct (Z.eq_dec R 0) as [->|HR].
      * by rewrite !(label_node_zero_labels _ _ _ _ Hmd Hlb).
      * apply label_node_idem_ok; [|done]. simpl. by rewrite Hmd, Hlb.
    + destruct (Z.eq_dec R 0) as [->|HR].
      * rewrite (label_node_zero_no_labels _ _ _ Hmd Hlb). simpl.
        erewrite label_node_zero_labels;
          [done|apply get_setitem_eq|apply get_setitem_eq].
      * apply label_node_idem_ok; [|done]. simpl. by rewrite Hmd, Hlb.
  - destruct (Z.eq_dec R 0) as [->|HR].
    + rewrite (label_node_zero_no_metadata _ _ Hmd). simpl.
      erewrite label_node_zero_labels; [done|apply get_setitem_eq|done].
    + apply label_node_idem_ok; [|done]. simpl. by rewrite Hmd.
Qed.

(** The body returns exactly on machine records with a non-zero modulus. *)
Lemma label_node_returns i R node :
  (label_node i R node).2 = Return () ↔ machine_record node = true ∧ R ≠ 0.
Proof.
  split.
  - intros Hret.
    destruct node as [| | | | | |d]; try done.
    simpl. destruct (Dict.get "metadata" d) as [m|] eqn:Hmd.
    + destruct (is_dict m) eqn:Hm.
      2:{ by rewrite (label_node_bad_metadata _ _ _ _ Hmd Hm) in Hret. }
      destruct m as [| | | | | |md]; try done.
      destruct (Dict.get "labels" md) as [l|] eqn:Hlb.
      * destruct (is_dict l) eqn:Hl.
        2:{ by rewrite (label_node_bad_labels _ _ _ _ _ Hmd Hlb Hl) in Hret. }
        destruct l as [| | | | | |lb]; try done. split; [done|]. intros ->.
        by rewrite (label_node_zero_labels _ _ _ _ Hmd Hlb) in Hret.
      * split; [done|]. intros ->.
        by rewrite (label_node_zero_no_labels _ _ _ Hmd Hlb) in Hret.
    + split; [done|]. intros ->.
      by rewrite (label_node_zero_no_metadata _ _ Hmd) in Hret.
  - intros [Hrec HR]. destruct node as [| | | | | |d]; try done.
    by rewrite label_node_ok.
Qed.

(** With modulus zero a machine record gets its [setdefault]s and the
    f-string raises. *)
Lemma label_node_zero i node :
  machine_record node = true →
  (label_node i 0 node).2 = Raise ZeroDivisionError.
Proof.
  destruct node as [| | | | | |d]; try done. simpl.
  destruct (Dict.get "metadata" d) as [m|] eqn:Hmd.
  - destruct m as [| | | | | |md]; try done.
    destruct (Dict.get "labels" md) as [l|] eqn:Hlb.
    + destruct l as [| | | | | |lb]; try done. intros _.
      by rewrite (label_node_zero_labels _ _ _ _ Hmd Hlb).
    + intros _. by rewrite (label_node_zero_no_labels _ _ _ Hmd Hlb).
  - intros _. by rewrite (label_node_zero_no_metadata _ _ Hmd).
Qed.

(** *** What the body leaves alone *)

Lemma lookup_path_setitem k k' p v d :
  lookup_path (k :: p) (YMap (Dict.setitem k' v d))
  = if String.eqb k k' then lookup_path p v else lookup_path (k :: p) (YMap d).
Proof.
  simpl. destruct (String.eqb_spec k k') as [->|Hne].
  - by rewrite get_setitem_eq.
  - by rewrite get_setitem_ne.
Qed.

Lemma lookup_path_sub_dict k p d :
  absent_or_dict (Dict.get k d) = true → p ≠ [] →
  lookup_path p (YMap (sub_dict k d)) = lookup_path (k :: p) (YMap d).
Proof.
  intros Hk Hp. unfold sub_dict. simpl.
  destruct (Dict.get k d) as [[]|]; try done. by destruct p.
Qed.

Lemma machine_record_metadata d :
  machine_record (YMap d) = true →
  absent_or_dict (Dict.get "metadata" d) = true ∧
  absent_or_dict (Dict.get "labels" (sub_dict "metadata" d)) = true.
Proof.
  unfold sub_dict. simpl.
  by destruct (Dict.get "metadata" d) as [[]|].
Qed.

Lemma lookup_path_labelled p v d :
  machine_record (YMap d) = true → diverge p rack_label_path = true →
  lookup_path p (labelled v d) = lookup_path p (YMap d).
Proof.
  intros [Hmd Hlb]%machine_record_metadata Hdiv. unfold labelled.
  destruct p as [|k1 p1]; [done|]. rewrite lookup_path_setitem.
  simpl in Hdiv. destruct (String.eqb_spec k1 "metadata") as [->|]; [|done].
  destruct p1 as [|k2 p2]; [done|]. rewrite lookup_path_setitem.
  rewrite <- (lookup_path_sub_dict "metadata") by done.
  simpl in Hdiv. destruct (String.eqb_spec k2 "labels") as [->|]; [|done].
  destruct p2 as [|k3 p3]; [done|]. rewrite lookup_path_setitem.
  rewrite <- (lookup_path_sub_dict "labels") by done.
  simpl in Hdiv.
  destruct (String.eqb_spec k3 rack_label_key); [by destruct p3|done].
Qed.

(** The body changes a record on the way to the rack label only. *)
Lemma label_node_frame i R node p :
  diverge p rack_label_path = true →
  lookup_path p (label_node i R node).1 = lookup_path p node.
Proof.
  intros Hdiv.
  destruct (machine_record node) eqn:Hrec.
  - destruct node as [| | | | | |d]; try done.
    destruct (Z.eq_dec R 0) as [->|HR].
    2:{ rewrite label_node_ok by done. by apply lookup_path_labelled. }
    simpl in Hrec. destruct (Dict.get "metadata" d) as [m|] eqn:Hmd.
    + destruct m as [| | | | | |md]; try done.
      destruct (Dict.get "labels" md) as [l|] eqn:Hlb.
      * destruct l as [| | | | | |lb]; try done.
        by rewrite (label_node_zero_labels _ _ _ _ Hmd Hlb).
      * rewrite (label_node_zero_no_labels _ _ _ Hmd Hlb). cbn [fst].
        destruct p as [|k1 p1]; [done|]. rewrite lookup_path_setitem.
        simpl in Hdiv.
        destruct (String.eqb_spec k1 "metadata") as [->|]; [|done].
        destruct p1 as [|k2 p2]; [done|]. rewrite lookup_path_setitem.
        simpl in Hdiv. simpl. rewrite Hmd.
        destruct (String.eqb_spec k2 "labels") as [->|]; [|done].
        rewrite Hlb. by destruct p2.
    + rewrite (label_node_zero_no_metadata _ _ Hmd). cbn [fst].
      destruct p as [|k1 p1]; [done|]. rewrite lookup_path_setitem.
      cbn [diverge rack_label_path] in Hdiv. cbn [lookup_path].
      destruct (String.eqb_spec k1 "metadata") as [->|]; [|done].
      rewrite Hmd. destruct p1 as [|k2 p2]; [done|].
      cbn [diverge] in Hdiv. cbn [lookup_path Dict.get].
      destruct (String.eqb_spec "labels" k2) as [<-|]; [|done].
      rewrite String.eqb_refl in Hdiv. by destruct p2.
  - destruct node as [| | | | | |d]; try done.
    simpl in Hrec. destruct (Dict.get "metadata" d) as [m|] eqn:Hmd; [|done].
    destruct (is_dict m) eqn:Hm.
    2:{ by rewrite (label_node_bad_metadata _ _ _ _ Hmd Hm). }
    destruct m as [| | | | | |md]; try done.
    destruct (Dict.get "labels" md) as [l|] eqn:Hlb; [|done].
    destruct (is_dict l) eqn:Hl.
    2:{ by rewrite (label_node_bad_labels _ _ _ _ _ Hmd Hlb Hl). }
    by destruct l.
Qed.

(** ** The loop of [add_rack_labels] *)

Lemma label_nodes_length i R nodes :
  length (label_nodes i R nodes).1 = length nodes.
Proof.
  revert i. induction nodes as [|node rest IH]; intros i; simpl; [done|].
  destruct (label_node i R node) as [node' [[]|e]]; simpl; [|done].
  specialize (IH (i + 1)).
  destruct (label_nodes (i + 1) R rest) as [rest' r]. simpl in *. by rewrite IH.
Qed.

(** On machine records and a non-zero modulus the loop runs to its end, and
    the record at position [j] gets the label of counter [i + j]. *)
Lemma label_nodes_ok i R nodes :
  Forall (λ node, machine_record node = true) nodes → R ≠ 0 →
  ∃ nodes',
    label_nodes i R nodes = (nodes', Return ()) ∧
    ∀ (j : nat) node, nodes !! j = Some node →
      ∃ d, node = YMap d ∧
           nodes' !! j
           = Some (labelled ("rack-" +:+ pretty ((i + Z.of_nat j) `mod` R)) d).
Proof.
  intros Hall HR. revert i.
  induction Hall as [|node rest Hrec Hall IH]; intros i.
  - exists []. split; [done|]. intros j node Hj. by rewrite lookup_nil in Hj.
  - destruct node as [| | | | | |d]; try done.
    destruct (IH (i + 1)) as (rest' & Hrest & Hlook).
    exists (labelled ("rack-" +:+ pretty (i `mod` R)) d :: rest').
    split.
    + simpl. rewrite label_node_ok by done. by rewrite Hrest.
    + intros [|j] node Hj; simpl in Hj.
      * injection Hj as <-. exists d. split; [done|]. simpl.
        by rewrite Z.add_0_r.
      * destruct (Hlook j node Hj) as (d' & -> & Hj').
        exists d'. split; [done|]. simpl. rewrite Hj'.
        by replace (i + 1 + Z.of_nat j) with (i + Z.of_nat (S j)) by lia.
Qed.

Lemma label_nodes_idem i R nodes :
  label_nodes i R (label_nodes i R nodes).1 = label_nodes i R nodes.
Proof.
  revert i. induction nodes as [|node rest IH]; intros i; simpl; [done|].
  pose proof (label_node_idem i R node) as Hidem.
  destruct (label_node i R node) as [node' [[]|e]] eqn:Hnode; simpl in *.
  - specialize (IH (i + 1)).
    destruct (label_nodes (i + 1) R rest) as [rest' r]. simpl in *.
    by rewrite Hidem, IH.
  - by rewrite Hidem.
Qed.

Lemma label_nodes_frame i R nodes j p :
  diverge p rack_label_path = true →
  lookup_path p <$> (label_nodes i R nodes).1 !! j
  = lookup_path p <$> nodes !! j.
Proof.
  intros Hdiv. revert i j.
  induction nodes as [|node rest IH]; intros i j; simpl; [done|].
  pose proof (label_node_frame i R node p Hdiv) as Hframe.
  destruct (label_node i R node) as [node' [[]|e]]; simpl in *.
  - specialize (IH (i + 1)).
    destruct (label_nodes (i + 1) R rest) as [rest' r]. simpl in *.
    destruct j as [|j]; simpl; [by rewrite Hframe|apply IH].
  - destruct j as [|j]; simpl; [by rewrite Hframe|done].
Qed.

(** ** Rack assignment *)

Lemma rack_label_labelled v d : rack_label (labelled v d) = Some v.
Proof.
  unfold rack_label, rack_label_path, labelled.
  by rewrite !lookup_path_setitem, !String.eqb_refl.
Qed.

(** The label text determines the rack number. *)
Lemma rack_text_inj (a b : Z) :
  "rack-" +:+ pretty a = "rack-" +:+ pretty b → a = b.
Proof. intros H. by apply (inj pretty), (inj (String.app "rack-")). Qed.

(** The distinct values of a round robin over [n] positions with [r]
    racks. *)
Lemma round_robin_values (n r : nat) (labels : list string) :
  (0 < r)%nat →
  (∀ x, x ∈ labels ↔
        ∃ j : nat, (j < n)%nat ∧
          x = "rack-" +:+ pretty (Z.of_nat j `mod` Z.of_nat r)) →
  size (list_to_set labels : gset string) = Nat.min n r.
Proof.
  intros Hr Hlabels.
  set (text := λ k : nat, "rack-" +:+ pretty (Z.of_nat k)).
  assert (Inj (=) (=) text) as Hinj.
  { intros a b Hab. apply rack_text_inj in Hab. lia. }
  assert ((list_to_set labels : gset string)
          = list_to_set (text <$> seq 0 (Nat.min n r))) as ->.
  { apply set_eq. intros x.
    rewrite !elem_of_list_to_set, Hlabels, list_elem_of_fmap.
    split.
    - intros (j & Hj & ->). exists (j `mod` r)%nat. split.
      + unfold text. by rewrite Nat2Z.inj_mod.
      + apply elem_of_seq. split; [lia|]. simpl.
        pose proof (Nat.mod_upper_bound j r).
        pose proof (Nat.Div0.mod_le j r). lia.
    - intros (k & -> & [_ Hk]%elem_of_seq). exists k. split; [lia|].
      unfold text. rewrite Z.mod_small; [done|lia]. }
  rewrite size_list_to_set, length_fmap, length_seq; [done|].
  apply NoDup_fmap_2; [done|apply NoDup_seq].
Qed.

(** C1: for a sequence of N machine records and a modulus R >= 1, rack
    assignment returns, the record at index i carries the rack label value
    "rack-<i mod R>" at the rack label key, and the distinct rack label
    values over the sequence number min(N, R). *)
Theorem rack_assignment_round_robin (nodes : list yaml) (R : Z) :
  1 ≤ R →
  Forall (λ node, machine_record node = true) nodes →
  ∃ nodes',
    add_rack_labels nodes R = (nodes', Return ()) ∧
    length nodes' = length nodes ∧
    (∀ (i : nat) node', nodes' !! i = Some node' →
       lookup_path ["metadata"; "labels"; "topology.kubernetes.io/rack"] node'
       = Some (YStr ("rack-" +:+ pretty (Z.of_nat i `mod` R)))) ∧
    size (rack_values nodes') = Nat.min (length nodes) (Z.to_nat R).
Proof.
  intros HR Hall. unfold add_rack_labels.
  destruct (label_nodes_ok 0 R nodes Hall) as (nodes' & Hrun & Hlook); [lia|].
  pose proof (label_nodes_length 0 R nodes) as Hlen.
  rewrite Hrun in Hlen. simpl in Hlen.
  assert (∀ (i : nat) node', nodes' !! i = Some node' →
            ∃ d, node' = labelled ("rack-" +:+ pretty (Z.of_nat i `mod` R)) d)
    as Hout.
  { intros i node' Hi.
    destruct (lookup_lt_is_Some_2 nodes i) as [node Hnode].
    { rewrite <- Hlen. by eapply lookup_lt_Some. }
    destruct (Hlook i node Hnode) as (d & _ & Hi'). exists d.
    rewrite Z.add_0_l in Hi'. congruence. }
  exists nodes'. split; [done|]. split; [done|]. split.
  - intros i node' Hi. destruct (Hout i node' Hi) as [d ->].
    pose proof (rack_label_labelled ("rack-" +:+ pretty (Z.of_nat i `mod` R)) d)
      as Hlabel.
    unfold rack_label, rack_label_path, rack_label_key in Hlabel.
    by destruct (lookup_path _ _) as [[]|]; simplify_eq.
  - unfold rack_values. rewrite <- Hlen.
    apply round_robin_values; [lia|]. intros x.
    rewrite list_elem_of_omap. rewrite Z2Nat.id by lia. split.
    + intros (node' & [i Hi]%list_elem_of_lookup & Hx).
      exists i. split; [by eapply lookup_lt_Some|].
      destruct (Hout i node' Hi) as [d ->].
      rewrite rack_label_labelled in Hx. congruence.
    + intros (j & Hj & ->).
      destruct (lookup_lt_is_Some_2 nodes' j Hj) as [node' Hnode'].
      exists node'. split; [by eapply list_elem_of_lookup_2|].
      destruct (Hout j node' Hnode') as [d ->]. apply rack_label_labelled.
Qed.

(** ** Constraint injection, one record *)

Lemma constrain_pod_not_dict key S w pod :
  is_dict pod = false →
  constrain_pod key S w pod = (pod, Raise AttributeError).
Proof. by destruct pod. Qed.

Lemma constrain_pod_other_kind key S w d :
  is_pod (YMap d) = false →
  constrain_pod key S w (YMap d) = (YMap d, Return ()).
Proof.
  unfold is_pod, constrain_pod. py_unfold. simpl.
  by destruct (ne_str (Dict.get "kind" d) "Pod").
Qed.

Lemma constrain_pod_ok key S w d :
  is_pod (YMap d) = true → absent_or_dict (Dict.get "spec" d) = true →
  constrain_pod key S w (YMap d)
  = (constrained (spread_constraints key S w) d, Return ()).
Proof.
  unfold is_pod, constrain_pod, constrained, sub_dict. py_unfold. simpl.
  destruct (ne_str (Dict.get "kind" d) "Pod"); [done|]. intros _ Hspec.
  unfold Dict.setdefault.
  destruct (Dict.get "spec" d) as [[| | | | | |sp]|] eqn:Hsp; try done.
  - by rewrite Hsp.
  - rewrite get_setitem_eq. simpl. by rewrite setitem_setitem.
Qed.

Lemma constrain_pod_bad_spec key S w d s :
  is_pod (YMap d) = true → Dict.get "spec" d = Some s → is_dict s = false →
  constrain_pod key S w (YMap d) = (YMap d, Raise TypeError).
Proof.
  unfold is_pod, constrain_pod. py_unfold. simpl.
  destruct (ne_str (Dict.get "kind" d) "Pod"); [done|]. intros _ Hsp Hs.
  unfold Dict.setdefault. rewrite Hsp, Hsp.
  destruct s; try done; simpl; by rewrite (setitem_get_id _ _ _ Hsp).
Qed.

(** Injection keeps the [kind] of a record. *)
Lemma is_pod_constrained c d : is_pod (constrained c d) = is_pod (YMap d).
Proof. unfold is_pod, constrained. by rewrite get_setitem_ne. Qed.

Lemma constrained_again c c' d :
  ∃ d', constrained c d = YMap d' ∧ constrained c' d' = constrained c' d ∧
        absent_or_dict (Dict.get "spec" d') = true ∧
        is_pod (YMap d') = is_pod (YMap d).
Proof.
  eexists. split; [reflexivity|]. unfold constrained.
  rewrite !sub_dict_setitem, !setitem_setitem, !get_setitem_eq.
  repeat split. unfold is_pod. by rewrite get_setitem_ne.
Qed.

(** A record that is no workload is left as it is, object and all. *)
Lemma constrain_pod_not_pod key S w pod :
  is_pod pod = false → (constrain_pod key S w pod).1 = pod.
Proof.
  intros Hpod. destruct (is_dict pod) eqn:Hd.
  - destruct pod; try done. by rewrite constrain_pod_other_kind.
  - by rewrite constrain_pod_not_dict.
Qed.

(** Running the body again on the record it left changes nothing more,
    also when it raised. *)
Lemma constrain_pod_idem key S w pod :
  constrain_pod key S w (constrain_pod key S w pod).1
  = constrain_pod key S w pod.
Proof.
  destruct (is_pod pod) eqn:Hpod.
  2:{ by rewrite constrain_pod_not_pod. }
  destruct pod as [| | | | | |d]; try done.
  destruct (Dict.get "spec" d) as [s|] eqn:Hsp.
  - destruct (is_dict s) eqn:Hs.
    + rewrite (constrain_pod_ok key S w d Hpod).
      2:{ rewrite Hsp. by destruct s. }
      destruct (constrained_again (spread_constraints key S w)
                  (spread_constraints key S w) d)
        as (d' & -> & Heq & Hsp' & Hpod').
      cbn [fst]. rewrite constrain_pod_ok; [by rewrite Heq|congruence|done].
    + by rewrite !(constrain_pod_bad_spec _ _ _ _ _ Hpod Hsp Hs).
  - rewrite (constrain_pod_ok key S w d Hpod) by by rewrite Hsp.
    destruct (constrained_again (spread_constraints key S w)
                (spread_constraints key S w) d)
      as (d' & -> & Heq & Hsp' & Hpod').
    cbn [fst]. rewrite constrain_pod_ok; [by rewrite Heq|congruence|done].
Qed.

(** The body returns exactly on workload-list records. *)
Lemma constrain_pod_returns key S w pod :
  (constrain_pod key S w pod).2 = Return () ↔ workload_record pod = true.
Proof.
  destruct pod as [| | | | | |d]; try done.
  unfold workload_record. destruct (is_pod (YMap d)) eqn:Hpod.
  - destruct (Dict.get "spec" d) as [s|] eqn:Hsp.
    + destruct (is_dict s) eqn:Hs.
      * rewrite constrain_pod_ok; [by destruct s|done|].
        rewrite Hsp. by destruct s.
      * rewrite (constrain_pod_bad_spec _ _ _ _ _ Hpod Hsp Hs). by destruct s.
    + rewrite constrain_pod_ok; [done|done|by rewrite Hsp].
  - by rewrite constrain_pod_other_kind.
Qed.

Lemma lookup_path_constrained p c d :
  absent_or_dict (Dict.get "spec" d) = true →
  diverge p spread_constraints_path = true →
  lookup_path p (constrained c d) = lookup_path p (YMap d).
Proof.
  intros Hsp Hdiv. unfold constrained.
  destruct p as [|k1 p1]; [done|]. rewrite lookup_path_setitem.
  cbn [diverge spread_constraints_path] in Hdiv.
  destruct (String.eqb_spec k1 "spec") as [->|]; [|done].
  destruct p1 as [|k2 p2]; [done|]. rewrite lookup_path_setitem.
  rewrite <- (lookup_path_sub_dict "spec") by done.
  cbn [diverge] in Hdiv.
  destruct (String.eqb_spec k2 "topologySpreadConstraints"); [by destruct p2|done].
Qed.

(** The body changes a record on the way to the spread-constraints field
    only. *)
Lemma constrain_pod_frame key S w pod p :
  diverge p spread_constraints_path = true →
  lookup_path p (constrain_pod key S w pod).1 = lookup_path p pod.
Proof.
  intros Hdiv. destruct (is_pod pod) eqn:Hpod.
  2:{ by rewrite constrain_pod_not_pod. }
  destruct pod as [| | | | | |d]; try done.
  destruct (Dict.get "spec" d) as [s|] eqn:Hsp.
  - destruct (is_dict s) eqn:Hs.
    + rewrite (constrain_pod_ok key S w d Hpod).
      2:{ rewrite Hsp. by destruct s. }
      apply lookup_path_constrained; [|done]. rewrite Hsp. by destruct s.
    + by rewrite (constrain_pod_bad_spec _ _ _ _ _ Hpod Hsp Hs).
  - rewrite (constrain_pod_ok key S w d Hpod) by by rewrite Hsp.
    apply lookup_path_constrained; [|done]. by rewrite Hsp.
Qed.

(** ** The loop of [add_topology_constraints] *)

Lemma constrain_pods_length key S w pods :
  length (constrain_pods key S w pods).1 = length pods.
Proof.
  induction pods as [|pod rest IH]; simpl; [done|].
  destruct (constrain_pod key S w pod) as [pod' [[]|e]]; simpl; [|done].
  destruct (constrain_pods key S w rest) as [rest' r]. simpl in *.
  by rewrite IH.
Qed.

(** On workload-list records the loop runs to its end and the record at
    each position is what the body made of it. *)
Lemma constrain_pods_ok key S w pods :
  Forall (λ pod, workload_record pod = true) pods →
  ∃ pods',
    constrain_pods key S w pods = (pods', Return ()) ∧
    ∀ (j : nat) pod, pods !! j = Some pod →
      ∃ pod', pods' !! j = Some pod' ∧
              constrain_pod key S w pod = (pod', Return ()).
Proof.
  induction 1 as [|pod rest Hrec Hall (rest' & Hrest & Hlook)].
  - exists []. split; [done|]. intros j pod Hj. by rewrite lookup_nil in Hj.
  - apply (constrain_pod_returns key S w) in Hrec.
    destruct (constrain_pod key S w pod) as [pod' [[]|e]] eqn:Hpod; [|done].
    exists (pod' :: rest'). split.
    + simpl. by rewrite Hpod, Hrest.
    + intros [|j] pod0 Hj; simpl in Hj.
      * injection Hj as <-. by exists pod'.
      * by apply Hlook.
Qed.

Lemma constrain_pods_idem key S w pods :
  constrain_pods key S w (constrain_pods key S w pods).1
  = constrain_pods key S w pods.
Proof.
  induction pods as [|pod rest IH]; simpl; [done|].
  pose proof (constrain_pod_idem key S w pod) as Hidem.
  destruct (constrain_pod key S w pod) as [pod' [[]|e]] eqn:Hpod; simpl in *.
  - destruct (constrain_pods key S w rest) as [rest' r]. simpl in *.
    by rewrite Hidem, IH.
  - by rewrite Hidem.
Qed.

Lemma constrain_pods_frame key S w pods j p :
  diverge p spread_constraints_path = true →
  lookup_path p <$> (constrain_pods key S w pods).1 !! j
  = lookup_path p <$> pods !! j.
Proof.
  intros Hdiv. revert j.
  induction pods as [|pod rest IH]; intros j; simpl; [done|].
  pose proof (constrain_pod_frame key S w pod p Hdiv) as Hframe.
  destruct (constrain_pod key S w pod) as [pod' [[]|e]]; simpl in *.
  - destruct (constrain_pods key S w rest) as [rest' r]. simpl in *.
    destruct j as [|j]; simpl; [by rewrite Hframe|apply IH].
  - destruct j as [|j]; simpl; [by rewrite Hframe|done].
Qed.

Lemma constrain_pods_not_pod key S w pods j pod :
  pods !! j = Some pod → is_pod pod = false →
  (constrain_pods key S w pods).1 !! j = Some pod.
Proof.
  revert j. induction pods as [|pod0 rest IH]; intros j Hj Hpod; [done|].
  simpl.
  destruct (constrain_pod key S w pod0) as [pod' [[]|e]] eqn:Hrun.
  - destruct (constrain_pods key S w rest) as [rest' r]. simpl in *.
    destruct j as [|j]; simpl in *.
    + injection Hj as ->.
      pose proof (constrain_pod_not_pod key S w pod Hpod) as Hsame.
      rewrite Hrun in Hsame. simpl in Hsame. by subst.
    + by apply IH.
  - destruct j as [|j]; simpl in *; [|done].
    injection Hj as ->.
    pose proof (constrain_pod_not_pod key S w pod Hpod) as Hsame.
    rewrite Hrun in Hsame. simpl in Hsame. by subst.
Qed.

(** ** Constraint injection *)

(** C2: for a sequence of workload-list records and a skew bound S,
    constraint injection returns, and every record of kind "Pod" has as its
    spread-constraints field the one-element sequence holding the constraint
    with skew bound S, the rack label key as topology key, the best-effort
    policy and an empty selector, whatever was at that key before; a record
    without a spec gets one. *)
Theorem constraint_injection (pods : list yaml) (S : Z) :
  Forall (λ pod, workload_record pod = true) pods →
  ∃ pods',
    add_topology_constraints pods default_topology_key S
      default_when_unsatisfiable = (pods', Return ()) ∧
    length pods' = length pods ∧
    ∀ (i : nat) pod, pods !! i = Some pod → is_pod pod = true →
      ∃ pod',
        pods' !! i = Some pod' ∧
        is_pod pod' = true ∧
        lookup_path ["spec"; "topologySpreadConstraints"] pod'
        = Some (YSeq [YMap [("maxSkew", YInt S);
                            ("topologyKey", YStr rack_label_key);
                            ("whenUnsatisfiable", YStr "ScheduleAnyway");
                            ("labelSelector", YMap [])]]) ∧
        (lookup_path ["spec"] pod = None →
         lookup_path ["spec"] pod'
         = Some (YMap [("topologySpreadConstraints",
                        YSeq [YMap [("maxSkew", YInt S);
                                    ("topologyKey", YStr rack_label_key);
                                    ("whenUnsatisfiable",
                                     YStr "ScheduleAnyway");
                                    ("labelSelector", YMap [])]])])).
Proof.
  intros Hall. unfold add_topology_constraints.
  destruct (constrain_pods_ok default_topology_key S
              default_when_unsatisfiable pods Hall) as (pods' & Hrun & Hlook).
  pose proof (constrain_pods_length default_topology_key S
                default_when_unsatisfiable pods) as Hlen.
  rewrite Hrun in Hlen. exists pods'. split; [done|]. split; [done|].
  intros i pod Hi Hpod.
  destruct (Hlook i pod Hi) as (pod' & Hi' & Hbody).
  exists pod'. split; [done|].
  destruct pod as [| | | | | |d]; try done.
  assert (absent_or_dict (Dict.get "spec" d) = true) as Hsp.
  { eapply Forall_lookup_1 in Hall; [|done].
    unfold workload_record in Hall. by rewrite Hpod in Hall. }
  rewrite constrain_pod_ok in Hbody by done. injection Hbody as <-.
  split; [by rewrite is_pod_constrained|]. split.
  - unfold constrained. by rewrite !lookup_path_setitem, !String.eqb_refl.
  - unfold constrained, sub_dict. rewrite lookup_path_setitem, String.eqb_refl.
    simpl. by destruct (Dict.get "spec" d).
Qed.

(** C4: constraint injection leaves every record whose kind is not "Pod"
    exactly as it was, a spread-constraints field it already had included,
    whatever the other records are and however the run ends. *)
Theorem non_workload_untouched (pods : list yaml) (key : string) (S : Z)
    (w : string) (i : nat) (pod : yaml) :
  pods !! i = Some pod →
  is_pod pod = false →
  (add_topology_constraints pods key S w).1 !! i = Some pod.
Proof. apply constrain_pods_not_pod. Qed.

(** C5: running rack assignment twice with the same modulus, or constraint
    injection twice with the same parameters, on the same sequence gives
    what running it once gives, outcome and records alike: the second run
    overwrites and adds nothing. *)
Theorem annotation_idempotent (nodes pods : list yaml) (R : Z)
    (key : string) (S : Z) (w : string) :
  add_rack_labels (add_rack_labels nodes R).1 R = add_rack_labels nodes R ∧
  add_topology_constraints (add_topology_constraints pods key S w).1 key S w
  = add_topology_constraints pods key S w.
Proof. split; [apply label_nodes_idem|apply constrain_pods_idem]. Qed.


Lemma labels_of_labelled v d :
  labels_of (labelled v d)
  = Dict.setitem rack_label_key (YStr v) (labels_of (YMap d)).
Proof. unfold labels_of, labelled. by rewrite !sub_dict_setitem. Qed.

Lemma machine_record_setitem_kind kind d :
  machine_record (YMap (Dict.setitem "kind" kind d))
  = machine_record (YMap d).
Proof. unfold machine_record. by rewrite get_setitem_ne. Qed.

(** C8: rack assignment labels every record of the sequence by its position
    and nothing else: the kind of a record plays no part, a rack label
    already there is replaced in place (otherwise the label is added last),
    a missing metadata or labels mapping is created, and with modulus 1
    every record gets "rack-0". *)
Theorem rack_assignment_positional (nodes : list yaml) (R : Z) :
  R ≠ 0 →
  Forall (λ node, machine_record node = true) nodes →
  ∃ nodes',
    add_rack_labels nodes R = (nodes', Return ()) ∧
    ∀ (i : nat) d, nodes !! i = Some (YMap d) →
      let value := "rack-" +:+ pretty (Z.of_nat i `mod` R) in
      ∃ node',
        nodes' !! i = Some node' ∧
        lookup_path ["metadata"; "labels"; "topology.kubernetes.io/rack"]
          node' = Some (YStr value) ∧
        (∀ kind,
           rack_label
             (label_node (Z.of_nat i) R (YMap (Dict.setitem "kind" kind d))).1
           = Some value) ∧
        (is_Some (Dict.get "topology.kubernetes.io/rack" (labels_of (YMap d)))
         → Dict.keys (labels_of node') = Dict.keys (labels_of (YMap d))) ∧
        (Dict.get "topology.kubernetes.io/rack" (labels_of (YMap d)) = None →
         Dict.keys (labels_of node')
         = (Dict.keys (labels_of (YMap d))
              ++ ["topology.kubernetes.io/rack"])%list) ∧
        (Dict.get "metadata" d = None →
         lookup_path ["metadata"] node'
         = Some (YMap [("labels",
                        YMap [("topology.kubernetes.io/rack",
                               YStr value)])])) ∧
        (lookup_path ["metadata"; "labels"] (YMap d) = None →
         lookup_path ["metadata"; "labels"] node'
         = Some (YMap [("topology.kubernetes.io/rack", YStr value)])) ∧
        (R = 1 → value = "rack-0").
Proof.
  intros HR Hall. unfold add_rack_labels.
  destruct (label_nodes_ok 0 R nodes Hall HR) as (nodes' & Hrun & Hlook).
  exists nodes'. split; [done|]. intros i d Hi. cbv zeta.
  set (value := "rack-" +:+ pretty (Z.of_nat i `mod` R)).
  destruct (Hlook i _ Hi) as (d' & [= <-] & Hi').
  rewrite Z.add_0_l in Hi'. fold value in Hi'.
  eapply Forall_lookup_1 in Hall; [|done].
  destruct (machine_record_metadata d Hall) as [Hmd Hlb].
  exists (labelled value d). split; [done|].
  pose proof (rack_label_labelled value d) as Hlabel.
  split.
  { unfold rack_label, rack_label_path, rack_label_key in Hlabel.
    by destruct (lookup_path _ _) as [[]|]; simplify_eq. }
  split.
  { intros kind. rewrite label_node_ok; [|by rewrite machine_record_setitem_kind|done].
    apply rack_label_labelled. }
  rewrite labels_of_labelled. split.
  { apply keys_setitem_some. }
  split.
  { apply keys_setitem_none. }
  split.
  { intros Hnone. unfold labelled, sub_dict.
    rewrite lookup_path_setitem, String.eqb_refl. by rewrite Hnone. }
  split.
  { intros Hnone. unfold labelled.
    rewrite !lookup_path_setitem, !String.eqb_refl.
    cbn [lookup_path]. do 2 f_equal.
    rewrite <- (lookup_path_sub_dict "metadata") in Hnone by done.
    unfold sub_dict at 1. simpl in Hnone.
    by destruct (Dict.get "labels" _) as [[]|]. }
  intros ->. unfold value. by rewrite Z.mod_1_r.
Qed.

(** ** File names *)

Lemma string_length_app (s t : string) :
  String.length (s +:+ t) = (String.length s + String.length t)%nat.
Proof. induction s as [|a s IH]; simpl; [done|]. by rewrite IH. Qed.

Lemma string_app_assoc (s t u : string) :
  s +:+ t +:+ u = (s +:+ t) +:+ u.
Proof.
  induction s as [|a s IH]; [done|].
  change (String a (s +:+ t +:+ u) = String a ((s +:+ t) +:+ u)).
  by rewrite IH.
Qed.

Lemma substring_app_prefix (s t : string) :
  String.substring 0 (String.length s) (s +:+ t) = s.
Proof.
  induction s as [|a s IH]; simpl.
  - by destruct t.
  - by rewrite IH.
Qed.

(** The last [c] of [s +:+ String c t] is the one shown when [t] has
    none. *)
Lemma rfind_app (c : Ascii.ascii) (s t : string) :
  rfind c t = None → rfind c (s +:+ String c t) = Some (String.length s).
Proof.
  intros Ht. induction s as [|a s IH]; simpl.
  - by rewrite Ht, Ascii.eqb_refl.
  - by rewrite IH.
Qed.

(** The stem of [base.yaml] is [base]. *)
Lemma stem_yaml (dir base : string) :
  base ≠ "" →
  stem {| parent := dir; name := base +:+ ".yaml" |} = base.
Proof.
  intros Hbase. unfold stem. cbn [name].
  change ".yaml" with (String "." "yaml").
  rewrite rfind_app by done.
  rewrite string_length_app. cbn [String.length].
  destruct base as [|a base]; [done|]. cbn [String.length].
  replace ((0 <? S (String.length base))%nat
           && (S (String.length base)
               <? S (String.length base) + 5 - 1)%nat) with true.
  2:{ symmetry. apply andb_true_intro.
      split; apply Nat.ltb_lt; lia. }
  apply (substring_app_prefix (String a base)).
Qed.

Lemma strip_prefix_Some (prefix s rest : string) :
  strip_prefix prefix s = Some rest ↔ s = prefix +:+ rest.
Proof.
  revert s. induction prefix as [|a prefix IH]; intros s; simpl.
  - split; [by intros [= ->]|by intros ->].
  - destruct s as [|b s]; [done|].
    destruct (Ascii.eqb_spec a b) as [->|Hne].
    + rewrite IH. split; [by intros ->|by intros [= ->]].
    + split; [done|]. by intros [= <- _].
Qed.

Lemma ends_with_true (suffix s : string) :
  ends_with suffix s = true ↔ ∃ middle, s = middle +:+ suffix.
Proof.
  induction s as [|a s IH]; cbn [ends_with].
  - rewrite orb_false_r. split.
    + intros <-%String.eqb_eq. by exists "".
    + intros [middle Heq]. apply String.eqb_eq.
      destruct middle; [done|]. done.
  - rewrite orb_true_iff, IH. split.
    + intros [<-%String.eqb_eq | [middle ->]].
      * by exists "".
      * by exists (String a middle).
    + intros [[|b middle] Heq].
      * left. apply String.eqb_eq. done.
      * right. exists middle. simpl in Heq. by injection Heq.
Qed.

(** A name matches [prefix*suffix] when it is the prefix, anything, and the
    suffix. *)
Lemma glob_match_true (prefix suffix file_name : string) :
  glob_match prefix suffix file_name = true ↔
  ∃ middle, file_name = prefix +:+ middle +:+ suffix.
Proof.
  unfold glob_match. split.
  - destruct (strip_prefix prefix file_name) as [rest|] eqn:Hrest; [|done].
    apply strip_prefix_Some in Hrest as ->.
    intros [middle ->]%ends_with_true. by exists middle.
  - intros [middle ->].
    assert (strip_prefix prefix (prefix +:+ middle +:+ suffix)
            = Some (middle +:+ suffix)) as -> by by apply strip_prefix_Some.
    apply ends_with_true. by exists middle.
Qed.

(** The stem of a name that matches [prefix*.yaml] is the name without
    [.yaml]. *)
Lemma stem_glob_match (dir prefix file_name : string) :
  prefix ≠ "" →
  glob_match prefix ".yaml" file_name = true →
  ∃ middle, file_name = prefix +:+ middle +:+ ".yaml" ∧
    stem {| parent := dir; name := file_name |} = prefix +:+ middle.
Proof.
  intros Hprefix [middle ->]%glob_match_true. exists middle. split; [done|].
  rewrite string_app_assoc. apply stem_yaml. by destruct prefix.
Qed.

(** ** The orchestrator *)

Section OrchestratorFacts.

Variable safe_load_all : string → outcome (list yaml).
Variable dump_all : list yaml → string.

Lemma py_bind_return {S A B} (m : Py S A) (k : A → Py S B) s s' a :
  m s = (s', Return a) → (m ≫= k) s = k a s'.
Proof. unfold mbind, py_bind. by intros ->. Qed.

Lemma py_bind_raise {S A B} (m : Py S A) (k : A → Py S B) s s' e :
  m s = (s', Raise e) → (m ≫= k) s = (s', Raise e).
Proof. unfold mbind, py_bind. by intros ->. Qed.

Lemma print_eq line w :
  print line w
  = ({| fs := fs w; stdout := (stdout w ++ [line])%list |}, Return ()).
Proof. done. Qed.

Lemma glob_parent dir prefix suffix w p :
  head (glob dir prefix suffix w) = Some p →
  parent p = dir ∧ glob_match prefix suffix (name p) = true.
Proof.
  unfold glob. intros Hhead.
  apply head_Some_elem_of, list_elem_of_fmap in Hhead as (n & -> & Hn).
  by apply list_elem_of_filter in Hn as [Hn _].
Qed.

Lemma load_ok (w : world) p text docs :
  fs_files (fs w) !! (parent p, name p) = Some text →
  safe_load_all text = Return docs →
  load safe_load_all p w = (w, Return docs).
Proof.
  intros Htext Hdocs. unfold load, read_text. py_unfold.
  by rewrite Htext, Hdocs.
Qed.

(** C3: when the path is no directory, or one of the two name patterns
    matches nothing in it, [process_directory] prints its failure message
    and nothing else, and returns without raising: the one line of line 40
    when the path is no directory, the four lines of lines 49 to 52 when a
    pattern has no match.  The file system is as it was, so no output file
    exists for this input. *)
Theorem missing_input_reported (w : world) (input_dir : string)
    (rack_mod max_skew : Z) :
  fs_dirs (fs w) !! input_dir = None ∨
  glob input_dir "openb_node_list_" ".yaml" w = [] ∨
  glob input_dir "openb_pod_list_" ".yaml" w = [] →
  process_directory safe_load_all dump_all input_dir rack_mod max_skew w
  = ({| fs := fs w;
        stdout :=
          (stdout w ++
           match fs_dirs (fs w) !! input_dir with
           | None => ["❌ " +:+ input_dir +:+ " is not a valid directory"]
           | Some _ =>
               ["❌ Could not find expected files in " +:+ input_dir;
                "   Expected:";
                "     openb_node_list_*.yaml";
                "     openb_pod_list_*.yaml"]
           end)%list |},
     Return ()).
Proof.
  intros Hmissing.
  unfold process_directory, is_dir, glob_first, print.
  py_unfold. cbn [fs stdout].
  destruct (fs_dirs (fs w) !! input_dir) as [entries|] eqn:Hdir.
  - rewrite bool_decide_true by eauto. cbn [negb].
    destruct Hmissing as [?|[Hnone|Hnone]]; [done| |].
    + rewrite Hnone. cbn [head].
      destruct (head (glob input_dir "openb_pod_list_" ".yaml" w));
        by rewrite <- !(assoc_L (++)).
    + rewrite Hnone. cbn [head].
      destruct (head (glob input_dir "openb_node_list_" ".yaml" w));
        by rewrite <- !(assoc_L (++)).
  - rewrite bool_decide_false by (by intros [? ?]). cbn [negb]. done.
Qed.

(** A run on a directory that has both files and whose files load. *)
Lemma process_directory_found (w : world) (input_dir : string)
    (rack_mod max_skew : Z) (node_file pod_file : Path)
    (node_text pod_text : string) (nodes pods : list yaml) :
  is_Some (fs_dirs (fs w) !! input_dir) →
  head (glob input_dir "openb_node_list_" ".yaml" w) = Some node_file →
  head (glob input_dir "openb_pod_list_" ".yaml" w) = Some pod_file →
  fs_files (fs w) !! (parent node_file, name node_file) = Some node_text →
  safe_load_all node_text = Return nodes →
  fs_files (fs w) !! (parent pod_file, name pod_file) = Some pod_text →
  safe_load_all pod_text = Return pods →
  process_directory safe_load_all dump_all input_dir rack_mod max_skew w
  = (nodes_with_racks ← run_local (add_rack_labels nodes rack_mod);
     write_text
       (with_name node_file
          (stem node_file +:+ "_with_rack-quantity" +:+ pretty rack_mod
             +:+ ".yaml"))
       (dump_all nodes_with_racks) ;;
     print ("✅ Modified Node YAML → " +:+
            path_str
              (with_name node_file
                 (stem node_file +:+ "_with_rack-quantity"
                    +:+ pretty rack_mod +:+ ".yaml"))) ;;
     pods_with_constraints ←
       run_local
         (add_topology_constraints pods "topology.kubernetes.io/rack"
            max_skew default_when_unsatisfiable);
     write_text
       (with_name pod_file
          (stem pod_file +:+ "_with_skew-value" +:+ pretty max_skew
             +:+ ".yaml"))
       (dump_all pods_with_constraints) ;;
     print ("✅ Modified Pod YAML → " +:+
            path_str
              (with_name pod_file
                 (stem pod_file +:+ "_with_skew-value" +:+ pretty max_skew
                    +:+ ".yaml"))))
      {| fs := fs w;
         stdout := (stdout w ++
                    ["✅ Found Node YAML: " +:+ path_str node_file;
                     "✅ Found Pod YAML:  " +:+ path_str pod_file])%list |}.
Proof.
  intros Hdir Hnode Hpod Hnt Hnodes Hpt Hpods.
  unfold process_directory at 1, is_dir, glob_first.
  unfold mbind at 1 2 3. unfold py_bind at 1 2 3.
  rewrite bool_decide_true by done. cbn [negb]. rewrite Hnode, Hpod.
  rewrite (py_bind_return _ _ w _ () (print_eq _ w)).
  rewrite (py_bind_return _ _ _ _ () (print_eq _ _)). cbn [fs stdout].
  rewrite <- (assoc_L (++)). cbn [app].
  rewrite (py_bind_return _ _ _ _ nodes
             (load_ok {| fs := fs w; stdout := _ |} _ _ _ Hnt Hnodes)).
  by rewrite (py_bind_return _ _ _ _ pods
                (load_ok {| fs := fs w; stdout := _ |} _ _ _ Hpt Hpods)).
Qed.

Lemma glob_is_dir dir prefix suffix w p :
  head (glob dir prefix suffix w) = Some p →
  is_Some (fs_dirs (fs w) !! dir).
Proof.
  unfold glob. by destruct (fs_dirs (fs w) !! dir); [eauto|].
Qed.

(** The two outputs have different names. *)
Lemma output_names_differ (m m' s s' : string) :
  "openb_node_list_" +:+ m +:+ s ≠ "openb_pod_list_" +:+ m' +:+ s'.
Proof. intros H. apply (f_equal (String.get 6)) in H. done. Qed.

(** When both files are found and load, and both annotations return, the
    run returns having written the two output files and nothing else. *)
Lemma process_directory_ok (w : world) (input_dir : string)
    (rack_mod max_skew : Z) (node_file pod_file : Path)
    (node_text pod_text : string) (nodes pods nodes' pods' : list yaml) :
  head (glob input_dir "openb_node_list_" ".yaml" w) = Some node_file →
  head (glob input_dir "openb_pod_list_" ".yaml" w) = Some pod_file →
  fs_files (fs w) !! (parent node_file, name node_file) = Some node_text →
  safe_load_all node_text = Return nodes →
  fs_files (fs w) !! (parent pod_file, name pod_file) = Some pod_text →
  safe_load_all pod_text = Return pods →
  add_rack_labels nodes rack_mod = (nodes', Return ()) →
  add_topology_constraints pods "topology.kubernetes.io/rack" max_skew
    default_when_unsatisfiable = (pods', Return ()) →
  ∃ w',
    process_directory safe_load_all dump_all input_dir rack_mod max_skew w
    = (w', Return ()) ∧
    fs_files (fs w')
    = <[(input_dir,
         stem pod_file +:+ "_with_skew-value" +:+ pretty max_skew
           +:+ ".yaml") := dump_all pods']>
        (<[(input_dir,
            stem node_file +:+ "_with_rack-quantity" +:+ pretty rack_mod
              +:+ ".yaml") := dump_all nodes']> (fs_files (fs w))).
Proof.
  intros Hnode Hpod Hnt Hnodes Hpt Hpods Hrack Hskew.
  rewrite (process_directory_found w input_dir rack_mod max_skew node_file
             pod_file node_text pod_text nodes pods); try done.
  2:{ by eapply glob_is_dir. }
  destruct (glob_is_dir _ _ _ _ _ Hnode) as [entries Hdir].
  apply glob_parent in Hnode as [Hnp _]. apply glob_parent in Hpod as [Hpp _].
  rewrite Hrack, Hskew. unfold run_local, write_text, print, with_name.
  py_unfold. cbn [fs stdout fs_files fs_dirs parent name].
  rewrite Hnp, Hpp, Hdir. cbn [fs stdout fs_files fs_dirs].
  rewrite lookup_insert_eq. eexists. split; [reflexivity|]. done.
Qed.

(** When labelling raises, the run stops there: both reports of the files
    found are out, no file is written. *)
Lemma process_directory_labelling_raises (w : world) (input_dir : string)
    (rack_mod max_skew : Z) (node_file pod_file : Path)
    (node_text pod_text : string) (nodes pods nodes' : list yaml) (e : exn) :
  head (glob input_dir "openb_node_list_" ".yaml" w) = Some node_file →
  head (glob input_dir "openb_pod_list_" ".yaml" w) = Some pod_file →
  fs_files (fs w) !! (parent node_file, name node_file) = Some node_text →
  safe_load_all node_text = Return nodes →
  fs_files (fs w) !! (parent pod_file, name pod_file) = Some pod_text →
  safe_load_all pod_text = Return pods →
  add_rack_labels nodes rack_mod = (nodes', Raise e) →
  ∃ w',
    process_directory safe_load_all dump_all input_dir rack_mod max_skew w
    = (w', Raise e) ∧ fs w' = fs w.
Proof.
  intros Hnode Hpod Hnt Hnodes Hpt Hpods Hrack.
  rewrite (process_directory_found w input_dir rack_mod max_skew node_file
             pod_file node_text pod_text nodes pods); try done.
  2:{ by eapply glob_is_dir. }
  rewrite Hrack. unfold run_local. py_unfold. by eexists.
Qed.

End OrchestratorFacts.

Lemma lookup_rack_label_labelled v d :
  lookup_path ["metadata"; "labels"; "topology.kubernetes.io/rack"]
    (labelled v d) = Some (YStr v).
Proof.
  unfold labelled, rack_label_key.
  by rewrite !lookup_path_setitem, !String.eqb_refl.
Qed.

Lemma lookup_constrained c d :
  lookup_path ["spec"; "topologySpreadConstraints"] (constrained c d)
  = Some c.
Proof.
  unfold constrained. by rewrite !lookup_path_setitem, !String.eqb_refl.
Qed.

(** With modulus zero the loop raises on its first record. *)
Lemma label_nodes_zero i nodes :
  nodes ≠ [] →
  Forall (λ node, machine_record node = true) nodes →
  ∃ nodes', label_nodes i 0 nodes = (nodes', Raise ZeroDivisionError).
Proof.
  intros Hne Hall. destruct Hall as [|node rest Hrec _]; [done|].
  pose proof (label_node_zero i node Hrec) as Hz. simpl.
  destruct (label_node i 0 node) as [node' r]. simpl in Hz. subst r.
  by eexists.
Qed.

Section OrchestratorClaims.

Variable safe_load_all : string → outcome (list yaml).
Variable dump_all : list yaml → string.

(** C6: the machine output file is named by the stem of the machine input
    file, then "_with_rack-quantity", the decimal numeral of R and ".yaml";
    the workload output file by the stem of the workload input file, then
    "_with_skew-value", the decimal numeral of S and ".yaml".  The stem of
    an input file is its name without the final ".yaml".  A run on a
    directory that has both files, with machine records, workload-list
    records and a modulus that is not zero, returns with the two annotated
    lists written under these names. *)
Theorem output_file_names (w : world) (input_dir : string) (R S : Z)
    (node_file pod_file : Path) (node_text pod_text : string)
    (nodes pods : list yaml) :
  head (glob input_dir "openb_node_list_" ".yaml" w) = Some node_file →
  head (glob input_dir "openb_pod_list_" ".yaml" w) = Some pod_file →
  fs_files (fs w) !! (parent node_file, name node_file) = Some node_text →
  safe_load_all node_text = Return nodes →
  fs_files (fs w) !! (parent pod_file, name pod_file) = Some pod_text →
  safe_load_all pod_text = Return pods →
  R ≠ 0 →
  Forall (λ node, machine_record node = true) nodes →
  Forall (λ pod, workload_record pod = true) pods →
  ∃ w' nodes' pods',
    process_directory safe_load_all dump_all input_dir R S w
    = (w', Return ()) ∧
    add_rack_labels nodes R = (nodes', Return ()) ∧
    add_topology_constraints pods "topology.kubernetes.io/rack" S
      "ScheduleAnyway" = (pods', Return ()) ∧
    name node_file = stem node_file +:+ ".yaml" ∧
    name pod_file = stem pod_file +:+ ".yaml" ∧
    fs_files (fs w')
      !! (input_dir,
          stem node_file +:+ "_with_rack-quantity" +:+ pretty R +:+ ".yaml")
    = Some (dump_all nodes') ∧
    fs_files (fs w')
      !! (input_dir,
          stem pod_file +:+ "_with_skew-value" +:+ pretty S +:+ ".yaml")
    = Some (dump_all pods').
Proof.
  intros Hnode Hpod Hnt Hnodes Hpt Hpods HR Hmachines Hworkloads.
  destruct (label_nodes_ok 0 R nodes Hmachines HR) as (nodes' & Hrack & _).
  destruct (constrain_pods_ok "topology.kubernetes.io/rack" S
              default_when_unsatisfiable pods Hworkloads)
    as (pods' & Hskew & _).
  destruct (process_directory_ok safe_load_all dump_all w input_dir R S
              node_file pod_file node_text pod_text nodes pods nodes' pods'
              Hnode Hpod Hnt Hnodes Hpt Hpods Hrack Hskew) as (w' & Hrun & Hfiles).
  destruct (glob_parent _ _ _ _ _ Hnode) as [Hnp Hnm].
  destruct (glob_parent _ _ _ _ _ Hpod) as [Hpp Hpm].
  destruct (stem_glob_match (parent node_file) "openb_node_list_"
              (name node_file) ltac:(done) Hnm)
    as (mn & Hnname & Hnstem).
  destruct (stem_glob_match (parent pod_file) "openb_pod_list_"
              (name pod_file) ltac:(done) Hpm)
    as (mp & Hpname & Hpstem).
  assert (stem node_file = "openb_node_list_" +:+ mn) as Hns.
  { by destruct node_file. }
  assert (stem pod_file = "openb_pod_list_" +:+ mp) as Hps.
  { by destruct pod_file. }
  exists w', nodes', pods'. rewrite Hfiles.
  split; [done|]. split; [done|]. split; [done|].
  split. { by rewrite Hns, Hnname, string_app_assoc. }
  split. { by rewrite Hps, Hpname, string_app_assoc. }
  split.
  - rewrite lookup_insert_ne, lookup_insert_eq; [done|].
    intros [= Heq]. rewrite Hns, Hps, <- !string_app_assoc in Heq.
    symmetry in Heq. by apply output_names_differ in Heq.
  - by rewrite lookup_insert_eq.
Qed.

(** C9: in the two files one run writes, the topology key of every injected
    spread constraint is the very key under which every machine record
    carries its rack label: the string "topology.kubernetes.io/rack".
    [process_directory] takes the directory, the modulus and the skew bound
    and has no parameter for the key. *)
Theorem topology_key_is_rack_label_key (w : world) (input_dir : string)
    (R S : Z) (node_file pod_file : Path) (node_text pod_text : string)
    (nodes pods : list yaml) :
  head (glob input_dir "openb_node_list_" ".yaml" w) = Some node_file →
  head (glob input_dir "openb_pod_list_" ".yaml" w) = Some pod_file →
  fs_files (fs w) !! (parent node_file, name node_file) = Some node_text →
  safe_load_all node_text = Return nodes →
  fs_files (fs w) !! (parent pod_file, name pod_file) = Some pod_text →
  safe_load_all pod_text = Return pods →
  R ≠ 0 →
  Forall (λ node, machine_record node = true) nodes →
  Forall (λ pod, workload_record pod = true) pods →
  ∃ w' nodes' pods' key,
    process_directory safe_load_all dump_all input_dir R S w
    = (w', Return ()) ∧
    fs_files (fs w')
    = <[(input_dir,
         stem pod_file +:+ "_with_skew-value" +:+ pretty S +:+ ".yaml")
        := dump_all pods']>
        (<[(input_dir,
            stem node_file +:+ "_with_rack-quantity" +:+ pretty R
              +:+ ".yaml") := dump_all nodes']> (fs_files (fs w))) ∧
    length nodes' = length nodes ∧
    length pods' = length pods ∧
    key = "topology.kubernetes.io/rack" ∧
    (∀ (i : nat) node', nodes' !! i = Some node' →
       lookup_path ["metadata"; "labels"; key] node'
       = Some (YStr ("rack-" +:+ pretty (Z.of_nat i `mod` R)))) ∧
    (∀ (i : nat) pod', pods' !! i = Some pod' → is_pod pod' = true →
       ∃ c, lookup_path ["spec"; "topologySpreadConstraints"] pod'
            = Some (YSeq [YMap c]) ∧
            Dict.get "topologyKey" c = Some (YStr key)).
Proof.
  intros Hnode Hpod Hnt Hnodes Hpt Hpods HR Hmachines Hworkloads.
  destruct (label_nodes_ok 0 R nodes Hmachines HR) as (nodes' & Hrack & Hn).
  destruct (constrain_pods_ok "topology.kubernetes.io/rack" S
              default_when_unsatisfiable pods Hworkloads)
    as (pods' & Hskew & Hp).
  destruct (process_directory_ok safe_load_all dump_all w input_dir R S
              node_file pod_file node_text pod_text nodes pods nodes' pods'
              Hnode Hpod Hnt Hnodes Hpt Hpods Hrack Hskew)
    as (w' & Hrun & Hfiles).
  pose proof (label_nodes_length 0 R nodes) as Hlen.
  pose proof (constrain_pods_length "topology.kubernetes.io/rack" S
                default_when_unsatisfiable pods) as Hlen'.
  rewrite Hrack in Hlen. rewrite Hskew in Hlen'. cbn [fst] in Hlen, Hlen'.
  exists w', nodes', pods', "topology.kubernetes.io/rack".
  repeat split; try done.
  - intros i node' Hi.
    destruct (lookup_lt_is_Some_2 nodes i) as [node Hnode'].
    { rewrite <- Hlen. by eapply lookup_lt_Some. }
    destruct (Hn i node Hnode') as (d & _ & Hi'). rewrite Z.add_0_l in Hi'.
    assert (node' = labelled ("rack-" +:+ pretty (Z.of_nat i `mod` R)) d)
      as -> by congruence.
    apply lookup_rack_label_labelled.
  - intros i pod' Hi Hkind.
    destruct (lookup_lt_is_Some_2 pods i) as [pod Hpod'].
    { rewrite <- Hlen'. by eapply lookup_lt_Some. }
    destruct (Hp i pod Hpod') as (pod0 & Hi' & Hbody).
    assert (pod0 = pod') as -> by congruence.
    destruct (is_pod pod) eqn:Hpodkind.
    + destruct pod as [| | | | | |d]; try done.
      eapply Forall_lookup_1 in Hworkloads; [|done].
      unfold workload_record in Hworkloads. rewrite Hpodkind in Hworkloads.
      rewrite constrain_pod_ok in Hbody by done. injection Hbody as <-.
      eexists. split; [apply lookup_constrained|done].
    + pose proof (constrain_pod_not_pod "topology.kubernetes.io/rack" S
                    default_when_unsatisfiable pod Hpodkind) as Hsame.
      rewrite Hbody in Hsame. cbn [fst] in Hsame. congruence.
Qed.

(** C10: nothing checks that the modulus is positive.  The command line
    hands any integers to [process_directory] as parsed, and rack
    assignment with modulus 0 on a non-empty sequence of machine records
    raises [ZeroDivisionError], which [process_directory] does not catch:
    the run ends with it and writes no file. *)
Theorem rack_modulus_unchecked (w : world) (input_dir : string) (S : Z)
    (node_file pod_file : Path) (node_text pod_text : string)
    (nodes pods : list yaml) :
  head (glob input_dir "openb_node_list_" ".yaml" w) = Some node_file →
  head (glob input_dir "openb_pod_list_" ".yaml" w) = Some pod_file →
  fs_files (fs w) !! (parent node_file, name node_file) = Some node_text →
  safe_load_all node_text = Return nodes →
  fs_files (fs w) !! (parent pod_file, name pod_file) = Some pod_text →
  safe_load_all pod_text = Return pods →
  nodes ≠ [] →
  Forall (λ node, machine_record node = true) nodes →
  (add_rack_labels nodes 0).2 = Raise ZeroDivisionError ∧
  (∃ w',
     main safe_load_all dump_all
       {| directory := input_dir; rack_mod := 0; max_skew := S |} w
     = (w', Raise ZeroDivisionError) ∧
     fs w' = fs w) ∧
  (∀ (dir : string) (R' S' : Z) (w0 : world),
     main safe_load_all dump_all
       {| directory := dir; rack_mod := R'; max_skew := S' |} w0
     = process_directory safe_load_all dump_all dir R' S' w0).
Proof.
  intros Hnode Hpod Hnt Hnodes Hpt Hpods Hne Hmachines.
  destruct (label_nodes_zero 0 nodes Hne Hmachines) as [nodes' Hzero].
  split; [unfold add_rack_labels; by rewrite Hzero|]. split; [|done].
  unfold main. cbn [directory rack_mod max_skew].
  by eapply process_directory_labelling_raises.
Qed.

End OrchestratorClaims.

(** ** The scenario of the specification, run *)

Example sample_run :
  ∃ w',
    process_directory sample_load sample_dump "data" 2 3 sample_world
    = (w', Return ()) ∧
    fs_files (fs w') !! ("data", "openb_node_list_v1_with_rack-quantity2.yaml")
    = Some "3 documents" ∧
    fs_files (fs w') !! ("data", "openb_pod_list_v1_with_skew-value3.yaml")
    = Some "3 documents" ∧
    rack_label <$> (add_rack_labels sample_nodes 2).1
    = [Some "rack-0"; Some "rack-1"; Some "rack-0"].
Proof. eexists. vm_compute. done. Qed.

(** ** The claims on the scenario *)

Lemma rack_assignment_round_robin_witness :
  (1 ≤ 2 ∧ Forall (λ node, machine_record node = true) sample_nodes) ∧
  ∃ nodes',
    add_rack_labels sample_nodes 2 = (nodes', Return ()) ∧
    length nodes' = length sample_nodes ∧
    (∀ (i : nat) node', nodes' !! i = Some node' →
       lookup_path ["metadata"; "labels"; "topology.kubernetes.io/rack"] node'
       = Some (YStr ("rack-" +:+ pretty (Z.of_nat i `mod` 2)))) ∧
    size (rack_values nodes') = Nat.min (length sample_nodes) (Z.to_nat 2).
Proof.
  split; [split; [lia|repeat constructor]|].
  apply (rack_assignment_round_robin sample_nodes 2); [lia|repeat constructor].
Defined.

Lemma constraint_injection_witness :
  Forall (λ pod, workload_record pod = true) sample_pods ∧
  ∃ pods',
    add_topology_constraints sample_pods default_topology_key 3
      default_when_unsatisfiable = (pods', Return ()) ∧
    length pods' = length sample_pods ∧
    ∀ (i : nat) pod, sample_pods !! i = Some pod → is_pod pod = true →
      ∃ pod',
        pods' !! i = Some pod' ∧
        is_pod pod' = true ∧
        lookup_path ["spec"; "topologySpreadConstraints"] pod'
        = Some (YSeq [YMap [("maxSkew", YInt 3);
                            ("topologyKey", YStr rack_label_key);
                            ("whenUnsatisfiable", YStr "ScheduleAnyway");
                            ("labelSelector", YMap [])]]) ∧
        (lookup_path ["spec"] pod = None →
         lookup_path ["spec"] pod'
         = Some (YMap [("topologySpreadConstraints",
                        YSeq [YMap [("maxSkew", YInt 3);
                                    ("topologyKey", YStr rack_label_key);
                                    ("whenUnsatisfiable",
                                     YStr "ScheduleAnyway");
                                    ("labelSelector", YMap [])]])])).
Proof.
  split; [repeat constructor|].
  apply (constraint_injection sample_pods 3). repeat constructor.
Defined.

Lemma missing_input_reported_witness :
  (fs_dirs (fs sample_world_no_pods) !! "data" = None ∨
   glob "data" "openb_node_list_" ".yaml" sample_world_no_pods = [] ∨
   glob "data" "openb_pod_list_" ".yaml" sample_world_no_pods = []) ∧
  process_directory sample_load sample_dump "data" 2 3 sample_world_no_pods
  = ({| fs := fs sample_world_no_pods;
        stdout :=
          (stdout sample_world_no_pods ++
           ["❌ Could not find expected files in data";
            "   Expected:";
            "     openb_node_list_*.yaml";
            "     openb_pod_list_*.yaml"])%list |},
     Return ()).
Proof.
  split; [right; right; vm_compute; reflexivity|].
  apply (missing_input_reported sample_load sample_dump sample_world_no_pods
           "data" 2 3).
  right. right. vm_compute. reflexivity.
Defined.

Lemma non_workload_untouched_witness :
  (sample_pods !! 2%nat = Some sample_service ∧
   is_pod sample_service = false) ∧
  (add_topology_constraints sample_pods "topology.kubernetes.io/rack" 3
     "ScheduleAnyway").1 !! 2%nat = Some sample_service.
Proof.
  split; [split; reflexivity|].
  apply (non_workload_untouched sample_pods "topology.kubernetes.io/rack" 3
           "ScheduleAnyway" 2 sample_service); reflexivity.
Defined.


Lemma rack_assignment_positional_witness :
  (2 ≠ 0 ∧ Forall (λ node, machine_record node = true) sample_nodes) ∧
  ∃ nodes',
    add_rack_labels sample_nodes 2 = (nodes', Return ()) ∧
    ∀ (i : nat) d, sample_nodes !! i = Some (YMap d) →
      let value := "rack-" +:+ pretty (Z.of_nat i `mod` 2) in
      ∃ node',
        nodes' !! i = Some node' ∧
        lookup_path ["metadata"; "labels"; "topology.kubernetes.io/rack"]
          node' = Some (YStr value) ∧
        (∀ kind,
           rack_label
             (label_node (Z.of_nat i) 2 (YMap (Dict.setitem "kind" kind d))).1
           = Some value) ∧
        (is_Some (Dict.get "topology.kubernetes.io/rack" (labels_of (YMap d)))
         → Dict.keys (labels_of node') = Dict.keys (labels_of (YMap d))) ∧
        (Dict.get "topology.kubernetes.io/rack" (labels_of (YMap d)) = None →
         Dict.keys (labels_of node')
         = (Dict.keys (labels_of (YMap d))
              ++ ["topology.kubernetes.io/rack"])%list) ∧
        (Dict.get "metadata" d = None →
         lookup_path ["metadata"] node'
         = Some (YMap [("labels",
                        YMap [("topology.kubernetes.io/rack",
                               YStr value)])])) ∧
        (lookup_path ["metadata"; "labels"] (YMap d) = None →
         lookup_path ["metadata"; "labels"] node'
         = Some (YMap [("topology.kubernetes.io/rack", YStr value)])) ∧
        (2 = 1 → value = "rack-0").
Proof.
  split; [split; [lia|repeat constructor]|].
  apply (rack_assignment_positional sample_nodes 2); [lia|repeat constructor].
Defined.

Lemma output_file_names_witness :
  (head (glob "data" "openb_node_list_" ".yaml" sample_world) = Some sample_node_file ∧
   head (glob "data" "openb_pod_list_" ".yaml" sample_world) = Some sample_pod_file ∧
   fs_files (fs sample_world) !! (parent sample_node_file, name sample_node_file)
   = Some "machines" ∧
   sample_load "machines" = Return sample_nodes ∧
   fs_files (fs sample_world) !! (parent sample_pod_file, name sample_pod_file)
   = Some "workloads" ∧
   sample_load "workloads" = Return sample_pods ∧
   2 ≠ 0 ∧
   Forall (λ node, machine_record node = true) sample_nodes ∧
   Forall (λ pod, workload_record pod = true) sample_pods) ∧
  ∃ w' nodes' pods',
    process_directory sample_load sample_dump "data" 2 3 sample_world
    = (w', Return ()) ∧
    add_rack_labels sample_nodes 2 = (nodes', Return ()) ∧
    add_topology_constraints sample_pods "topology.kubernetes.io/rack" 3
      "ScheduleAnyway" = (pods', Return ()) ∧
    name sample_node_file = stem sample_node_file +:+ ".yaml" ∧
    name sample_pod_file = stem sample_pod_file +:+ ".yaml" ∧
    fs_files (fs w')
      !! ("data",
          stem sample_node_file +:+ "_with_rack-quantity" +:+ pretty 2 +:+ ".yaml")
    = Some (sample_dump nodes') ∧
    fs_files (fs w')
      !! ("data",
          stem sample_pod_file +:+ "_with_skew-value" +:+ pretty 3 +:+ ".yaml")
    = Some (sample_dump pods').
Proof.
  split.
  { repeat split; try (vm_compute; reflexivity); try lia;
      repeat constructor. }
  apply (output_file_names sample_load sample_dump sample_world "data" 2 3
           sample_node_file sample_pod_file "machines" "workloads" sample_nodes sample_pods);
    try (vm_compute; reflexivity); try lia; repeat constructor.
Defined.

Lemma topology_key_is_rack_label_key_witness :
  ∃ w' nodes' pods' key,
    process_directory sample_load sample_dump "data" 2 3 sample_world
    = (w', Return ()) ∧
    fs_files (fs w')
    = <[("data",
         stem sample_pod_file +:+ "_with_skew-value" +:+ pretty 3 +:+ ".yaml")
        := sample_dump pods']>
        (<[("data",
            stem sample_node_file +:+ "_with_rack-quantity" +:+ pretty 2
              +:+ ".yaml") := sample_dump nodes']>
           (fs_files (fs sample_world))) ∧
    length nodes' = length sample_nodes ∧
    length pods' = length sample_pods ∧
    key = "topology.kubernetes.io/rack" ∧
    (∀ (i : nat) node', nodes' !! i = Some node' →
       lookup_path ["metadata"; "labels"; key] node'
       = Some (YStr ("rack-" +:+ pretty (Z.of_nat i `mod` 2)))) ∧
    (∀ (i : nat) pod', pods' !! i = Some pod' → is_pod pod' = true →
       ∃ c, lookup_path ["spec"; "topologySpreadConstraints"] pod'
            = Some (YSeq [YMap c]) ∧
            Dict.get "topologyKey" c = Some (YStr key)).
Proof.
  apply (topology_key_is_rack_label_key sample_load sample_dump sample_world
           "data" 2 3 sample_node_file sample_pod_file "machines" "workloads" sample_nodes
           sample_pods);
    try (vm_compute; reflexivity); try lia; repeat constructor.
Defined.

Lemma rack_modulus_unchecked_witness :
  (sample_nodes ≠ [] ∧
   Forall (λ node, machine_record node = true) sample_nodes) ∧
  (add_rack_labels sample_nodes 0).2 = Raise ZeroDivisionError ∧
  (∃ w',
     main sample_load sample_dump
       {| directory := "data"; rack_mod := 0; max_skew := 3 |} sample_world
     = (w', Raise ZeroDivisionError) ∧
     fs w' = fs sample_world) ∧
  (∀ (dir : string) (R' S' : Z) (w0 : world),
     main sample_load sample_dump
       {| directory := dir; rack_mod := R'; max_skew := S' |} w0
     = process_directory sample_load sample_dump dir R' S' w0).
Proof.
  split; [split; [discriminate|repeat constructor]|].
  apply (rack_modulus_unchecked sample_load sample_dump sample_world "data" 3
           sample_node_file sample_pod_file "machines" "workloads" sample_nodes sample_pods);
    try (vm_compute; reflexivity); try discriminate; repeat constructor.
Defined.

(** ** Records the annotations do not accept

    A key bound to [null] is present, so [setdefault] leaves it, and the
    next step fails on the [None] it finds. *)

Example null_metadata_raises :
  add_rack_labels [YMap [("kind", YStr "Node"); ("metadata", YNull)]] 2
  = ([YMap [("kind", YStr "Node"); ("metadata", YNull)]],
     Raise AttributeError).
Proof. reflexivity. Qed.

Example null_labels_raises :
  add_rack_labels [YMap [("metadata", YMap [("labels", YNull)])]] 2
  = ([YMap [("metadata", YMap [("labels", YNull)])]], Raise TypeError).
Proof. reflexivity. Qed.

Example null_spec_raises :
  add_topology_constraints [YMap [("kind", YStr "Pod"); ("spec", YNull)]]
    default_topology_key 1 default_when_unsatisfiable
  = ([YMap [("kind", YStr "Pod"); ("spec", YNull)]], Raise TypeError).
Proof. reflexivity. Qed.

(** An empty document loads as [None], which has no [get]. *)
Example empty_document_raises :
  add_topology_constraints [YMap [("kind", YStr "Pod")]; YNull]
    default_topology_key 1 default_when_unsatisfiable
  = ([YMap [("kind", YStr "Pod");
            ("spec",
             YMap [("topologySpreadConstraints",
                    YSeq [YMap [("maxSkew", YInt 1);
                                ("topologyKey",
                                 YStr "topology.kubernetes.io/rack");
                                ("whenUnsatisfiable", YStr "ScheduleAnyway");
                                ("labelSelector", YMap [])]])])];
      YNull],
     Raise AttributeError).
Proof. reflexivity. Qed.

(** A negative modulus is taken as it is: [%] follows the sign of the
    divisor. *)
Example negative_modulus :
  rack_label <$> (add_rack_labels sample_nodes (-2)).1
  = [Some "rack-0"; Some "rack--1"; Some "rack-0"].
Proof. vm_compute. reflexivity. Qed.

(** * Further properties of the code *)

(** ** When the annotations return and what they raise *)

Lemma label_node_outcome i R node :
  (label_node i R node).2 = label_outcome R node.
Proof.
  destruct node as [| | | | | |d]; try done. cbn [label_outcome].
  destruct (Dict.get "metadata" d) as [m|] eqn:Hmd.
  - destruct (is_dict m) eqn:Hm.
    2:{ rewrite (label_node_bad_metadata _ _ _ _ Hmd Hm). by destruct m. }
    destruct m as [| | | | | |md]; try done.
    destruct (Dict.get "labels" md) as [l|] eqn:Hlb.
    + destruct (is_dict l) eqn:Hl.
      2:{ rewrite (label_node_bad_labels _ _ _ _ _ Hmd Hlb Hl).
          destruct (R =? 0); [done|]. by destruct l. }
      destruct l as [| | | | | |lb]; try done.
      destruct (Z.eqb_spec R 0) as [->|HR].
      * by rewrite (label_node_zero_labels _ _ _ _ Hmd Hlb).
      * rewrite label_node_ok; [done| |done]. simpl. by rewrite Hmd, Hlb.
    + destruct (Z.eqb_spec R 0) as [->|HR].
      * by rewrite (label_node_zero_no_labels _ _ _ Hmd Hlb).
      * rewrite label_node_ok; [done| |done]. simpl. by rewrite Hmd, Hlb.
  - destruct (Z.eqb_spec R 0) as [->|HR].
    + by rewrite (label_node_zero_no_metadata _ _ Hmd).
    + rewrite label_node_ok; [done| |done]. simpl. by rewrite Hmd.
Qed.

Lemma constrain_pod_outcome key S w pod :
  (constrain_pod key S w pod).2 = constrain_outcome pod.
Proof.
  destruct pod as [| | | | | |d]; try done. cbn [constrain_outcome].
  destruct (is_pod (YMap d)) eqn:Hpod; cbn [andb].
  2:{ by rewrite constrain_pod_other_kind. }
  destruct (Dict.get "spec" d) as [s|] eqn:Hsp.
  - destruct (is_dict s) eqn:Hs.
    + rewrite constrain_pod_ok; [by destruct s|done|]. rewrite Hsp.
      by destruct s.
    + rewrite (constrain_pod_bad_spec _ _ _ _ _ Hpod Hsp Hs). by destruct s.
  - rewrite constrain_pod_ok; [done|done|by rewrite Hsp].
Qed.

Lemma label_nodes_outcome i R nodes :
  (label_nodes i R nodes).2 = first_raise (label_outcome R <$> nodes).
Proof.
  revert i. induction nodes as [|node rest IH]; intros i; [done|].
  cbn [label_nodes fmap list_fmap first_raise].
  rewrite <- (label_node_outcome i R node).
  destruct (label_node i R node) as [node' [[]|e]]; [|done].
  specialize (IH (i + 1)).
  by destruct (label_nodes (i + 1) R rest) as [rest' r].
Qed.

Lemma constrain_pods_outcome key S w pods :
  (constrain_pods key S w pods).2 = first_raise (constrain_outcome <$> pods).
Proof.
  induction pods as [|pod rest IH]; [done|].
  cbn [constrain_pods fmap list_fmap first_raise].
  rewrite <- (constrain_pod_outcome key S w pod).
  destruct (constrain_pod key S w pod) as [pod' [[]|e]]; [|done].
  by destruct (constrain_pods key S w rest) as [rest' r].
Qed.

Lemma label_nodes_returns i R nodes :
  (label_nodes i R nodes).2 = Return () ↔
  nodes = [] ∨ (R ≠ 0 ∧ Forall (λ node, machine_record node = true) nodes).
Proof.
  revert i. induction nodes as [|node rest IH]; intros i.
  - split; [by left|done].
  - cbn [label_nodes].
    pose proof (label_node_returns i R node) as Hbody.
    destruct (label_node i R node) as [node' [[]|e]]; cbn [snd] in Hbody.
    + destruct Hbody as [Hbody _]. destruct (Hbody eq_refl) as [Hrec HR].
      specialize (IH (i + 1)).
      destruct (label_nodes (i + 1) R rest) as [rest' r]. cbn [snd] in *.
      rewrite IH. split.
      * intros [->|[_ Hall]]; right; (split; [done|]);
          (constructor; [done|]); [constructor|done].
      * intros [?|[_ Hall]]; [done|]. right. split; [done|].
        by inversion Hall.
    + split; [done|]. intros [?|[HR Hall]]; [done|].
      inversion Hall as [|? ? Hrec _]; subst.
      destruct Hbody as [_ Hbody]. by specialize (Hbody (conj Hrec HR)).
Qed.

(** X1: [add_rack_labels] returns exactly when the list is empty, or the
    modulus is not zero and every record is a mapping whose [metadata],
    when present, is a mapping whose [labels], when present, is a mapping.
    An empty list returns even with modulus zero. *)
Theorem add_rack_labels_returns (nodes : list yaml) (R : Z) :
  (add_rack_labels nodes R).2 = Return () ↔
  nodes = [] ∨ (R ≠ 0 ∧ Forall (λ node, machine_record node = true) nodes).
Proof. apply label_nodes_returns. Qed.

(** X2: [add_topology_constraints] returns exactly when every record is a
    mapping and every record of kind "Pod" has a [spec] that is absent or a
    mapping; neither the topology key nor the skew bound plays a part. *)
Theorem add_topology_constraints_returns (pods : list yaml) (key : string)
    (S : Z) (w : string) :
  (add_topology_constraints pods key S w).2 = Return () ↔
  Forall (λ pod, workload_record pod = true) pods.
Proof.
  unfold add_topology_constraints. induction pods as [|pod rest IH].
  - split; [by constructor|done].
  - cbn [constrain_pods].
    pose proof (constrain_pod_returns key S w pod) as Hbody.
    destruct (constrain_pod key S w pod) as [pod' [[]|e]]; cbn [snd] in Hbody.
    + destruct Hbody as [Hrec _]. specialize (Hrec eq_refl).
      destruct (constrain_pods key S w rest) as [rest' r]. cbn [snd] in *.
      rewrite IH. split; [by constructor|]. intros Hall. by inversion Hall.
    + split; [done|]. intros Hall. inversion Hall as [|? ? Hrec _]; subst.
      destruct Hbody as [_ Hbody]. by specialize (Hbody Hrec).
Qed.

(** X3: [add_rack_labels] ends as its first record that does not pass
    does: [AttributeError] for a record that is no mapping or whose
    [metadata] is no mapping, otherwise [ZeroDivisionError] when the
    modulus is zero, otherwise [TypeError] for a [labels] that is no
    mapping.  It raises nothing else; a [KeyError] cannot happen. *)
Theorem add_rack_labels_outcome (nodes : list yaml) (R : Z) :
  (add_rack_labels nodes R).2 = first_raise (label_outcome R <$> nodes) ∧
  (∀ e, (add_rack_labels nodes R).2 = Raise e →
        e = AttributeError ∨ e = TypeError ∧ R ≠ 0 ∨
        e = ZeroDivisionError ∧ R = 0).
Proof.
  unfold add_rack_labels. rewrite label_nodes_outcome. split; [done|].
  induction nodes as [|node rest IH]; [done|].
  cbn [fmap list_fmap first_raise].
  destruct (label_outcome R node) as [[]|e0] eqn:Hnode; [done|].
  intros e [= <-]. unfold label_outcome in Hnode.
  destruct (Z.eqb_spec R 0);
    repeat (case_match; simplify_eq; eauto).
Qed.

(** X4: [add_topology_constraints] ends as its first record that does not
    pass does: [AttributeError] for a record that is no mapping,
    [TypeError] for a record of kind "Pod" whose [spec] is present and no
    mapping.  It raises nothing else. *)
Theorem add_topology_constraints_outcome (pods : list yaml) (key : string)
    (S : Z) (w : string) :
  (add_topology_constraints pods key S w).2
  = first_raise (constrain_outcome <$> pods) ∧
  (∀ e, (add_topology_constraints pods key S w).2 = Raise e →
        e = AttributeError ∨ e = TypeError).
Proof.
  unfold add_topology_constraints. rewrite constrain_pods_outcome.
  split; [done|].
  induction pods as [|pod rest IH]; [done|].
  cbn [fmap list_fmap first_raise].
  destruct (constrain_outcome pod) as [[]|e0] eqn:Hpod; [done|].
  intros e [= <-]. unfold constrain_outcome in Hpod.
  repeat (case_match; simplify_eq; eauto).
Qed.

(** ** Lists put together *)

(** The loop on [l1 ++ l2]: [l1] as on its own, then [l2] with the counter
    where [l1] left it, unless [l1] raised. *)
Lemma label_nodes_app i R l1 l2 :
  label_nodes i R (l1 ++ l2)%list
  = match label_nodes i R l1 with
    | (l1', Return _) =>
        let '(l2', r) := label_nodes (i + Z.of_nat (length l1)) R l2 in
        ((l1' ++ l2')%list, r)
    | (l1', Raise e) => ((l1' ++ l2)%list, Raise e)
    end.
Proof.
  revert i. induction l1 as [|node rest IH]; intros i.
  - cbn [app label_nodes length]. rewrite Z.add_0_r.
    by destruct (label_nodes i R l2).
  - cbn [app label_nodes length].
    destruct (label_node i R node) as [node' [[]|e]]; [|done].
    rewrite IH.
    replace (i + 1 + Z.of_nat (length rest))
      with (i + Z.of_nat (S (length rest))) by lia.
    destruct (label_nodes (i + 1) R rest) as [rest' [[]|e]]; [|done].
    by destruct (label_nodes _ R l2).
Qed.

(** X5: when [add_rack_labels] raises on a list, it raises the same on any
    longer list that starts with it, and the records after that list are
    left exactly as they were: nothing past the failing record is
    touched. *)
Theorem add_rack_labels_stops_at_raise (l1 l2 : list yaml) (R : Z) (e : exn) :
  (add_rack_labels l1 R).2 = Raise e →
  add_rack_labels (l1 ++ l2)%list R = (((add_rack_labels l1 R).1 ++ l2)%list, Raise e).
Proof.
  unfold add_rack_labels. rewrite label_nodes_app.
  destruct (label_nodes 0 R l1) as [l1' [[]|e']]; [done|]. by intros [= ->].
Qed.

(** X6: what [add_rack_labels] makes of a record does not depend on the
    records after it: on [l1 ++ l2] the first [length l1] records come out
    as on [l1] alone, whether or not the run raises. *)
Theorem add_rack_labels_prefix_stable (l1 l2 : list yaml) (R : Z) :
  take (length l1) (add_rack_labels (l1 ++ l2)%list R).1 = (add_rack_labels l1 R).1.
Proof.
  unfold add_rack_labels. rewrite label_nodes_app.
  pose proof (label_nodes_length 0 R l1) as Hlen.
  destruct (label_nodes 0 R l1) as [l1' [[]|e]]; cbn [fst] in *.
  - destruct (label_nodes _ R l2) as [l2' r]. cbn [fst].
    by rewrite <- Hlen, take_app_length.
  - by rewrite <- Hlen, take_app_length.
Qed.

(** The label written depends on the counter modulo the modulus. *)
Lemma label_node_counter i j R node :
  i `mod` R = j `mod` R → label_node i R node = label_node j R node.
Proof.
  intros Hij. unfold label_node, rack_fstring. by rewrite Hij.
Qed.

Lemma label_nodes_counter i j R nodes :
  i `mod` R = j `mod` R → label_nodes i R nodes = label_nodes j R nodes.
Proof.
  revert i j. induction nodes as [|node rest IH]; intros i j Hij; [done|].
  cbn [label_nodes]. rewrite (label_node_counter i j R node Hij).
  rewrite (IH (i + 1) (j + 1)); [done|].
  by rewrite (Zplus_mod i), (Zplus_mod j), Hij.
Qed.

(** X7: a list whose length is a multiple of the modulus can be labelled
    apart: when [add_rack_labels] returns on [l1] and the modulus divides
    the length of [l1], the run on [l1 ++ l2] is the run on [l1] followed
    by the run on [l2], both starting from "rack-0". *)
Theorem add_rack_labels_app_multiple (l1 l2 : list yaml) (R : Z) :
  (add_rack_labels l1 R).2 = Return () →
  Z.of_nat (length l1) `mod` R = 0 →
  add_rack_labels (l1 ++ l2)%list R
  = (((add_rack_labels l1 R).1 ++ (add_rack_labels l2 R).1)%list,
     (add_rack_labels l2 R).2).
Proof.
  unfold add_rack_labels. rewrite label_nodes_app. intros Hret Hmul.
  destruct (label_nodes 0 R l1) as [l1' [[]|e]]; [|done].
  rewrite (label_nodes_counter (0 + Z.of_nat (length l1)) 0 R l2).
  - by destruct (label_nodes 0 R l2).
  - by rewrite Z.add_0_l, Hmul, Zmod_0_l.
Qed.

Lemma constrain_pods_app key S w l1 l2 :
  constrain_pods key S w (l1 ++ l2)%list
  = match constrain_pods key S w l1 with
    | (l1', Return _) =>
        let '(l2', r) := constrain_pods key S w l2 in ((l1' ++ l2')%list, r)
    | (l1', Raise e) => ((l1' ++ l2)%list, Raise e)
    end.
Proof.
  induction l1 as [|pod rest IH].
  - cbn [app constrain_pods]. by destruct (constrain_pods key S w l2).
  - cbn [app constrain_pods].
    destruct (constrain_pod key S w pod) as [pod' [[]|e]]; [|done].
    rewrite IH.
    destruct (constrain_pods key S w rest) as [rest' [[]|e]]; [|done].
    by destruct (constrain_pods key S w l2).
Qed.

(** X8: constraint injection works record by record, whatever the
    position: on [l1 ++ l2] it is the run on [l1] followed by the run on
    [l2]; and when the run on [l1] raises, [l2] is left exactly as it
    was. *)
Theorem add_topology_constraints_app (l1 l2 : list yaml) (key : string)
    (S : Z) (w : string) :
  add_topology_constraints (l1 ++ l2)%list key S w
  = match (add_topology_constraints l1 key S w).2 with
    | Return _ =>
        (((add_topology_constraints l1 key S w).1
            ++ (add_topology_constraints l2 key S w).1)%list,
         (add_topology_constraints l2 key S w).2)
    | Raise e =>
        (((add_topology_constraints l1 key S w).1 ++ l2)%list, Raise e)
    end.
Proof.
  unfold add_topology_constraints. rewrite constrain_pods_app.
  destruct (constrain_pods key S w l1) as [l1' [[]|e]]; [|done].
  by destruct (constrain_pods key S w l2).
Qed.

Lemma add_rack_labels_stops_at_raise_witness :
  (add_rack_labels [YMap [("metadata", YNull)]] 2).2 = Raise AttributeError ∧
  add_rack_labels ([YMap [("metadata", YNull)]] ++ sample_nodes)%list 2
  = (((add_rack_labels [YMap [("metadata", YNull)]] 2).1 ++ sample_nodes)%list,
     Raise AttributeError).
Proof.
  split; [reflexivity|].
  apply (add_rack_labels_stops_at_raise [YMap [("metadata", YNull)]]
           sample_nodes 2 AttributeError).
  reflexivity.
Defined.

Lemma add_rack_labels_app_multiple_witness :
  ((add_rack_labels (take 2 sample_nodes) 2).2 = Return () ∧
   Z.of_nat (length (take 2 sample_nodes)) `mod` 2 = 0) ∧
  add_rack_labels (take 2 sample_nodes ++ drop 2 sample_nodes)%list 2
  = (((add_rack_labels (take 2 sample_nodes) 2).1
        ++ (add_rack_labels (drop 2 sample_nodes) 2).1)%list,
     (add_rack_labels (drop 2 sample_nodes) 2).2).
Proof.
  split; [split; reflexivity|].
  apply (add_rack_labels_app_multiple (take 2 sample_nodes)
           (drop 2 sample_nodes) 2); reflexivity.
Defined.

(** ** The order of the fields *)

(** The keys after [d[k] = v]: as before, with [k] last when it is new. *)
Lemma keys_setitem {V} k (v : V) d :
  Dict.keys (Dict.setitem k v d)
  = if has_key k d then Dict.keys d else (Dict.keys d ++ [k])%list.
Proof.
  unfold has_key. destruct (Dict.get k d) eqn:Hk.
  - by apply keys_setitem_some.
  - by apply keys_setitem_none.
Qed.

Lemma get_None_keys {V} k (d : list (string * V)) :
  Dict.get k d = None → k ∉ Dict.keys d.
Proof.
  unfold Dict.keys. induction d as [|[k' v'] d IH]; csimpl.
  - intros _. apply not_elem_of_nil.
  - destruct (String.eqb_spec k' k) as [->|Hne]; [done|].
    intros Hk [->|Hin]%elem_of_cons; [done|]. by apply IH.
Qed.

Lemma NoDup_keys_setitem {V} k (v : V) d :
  NoDup (Dict.keys d) → NoDup (Dict.keys (Dict.setitem k v d)).
Proof.
  intros Hd. rewrite keys_setitem. unfold has_key.
  destruct (Dict.get k d) eqn:Hk; [done|].
  apply NoDup_app. split; [done|]. split; [|apply NoDup_singleton].
  intros x Hx ->%list_elem_of_singleton. by apply get_None_keys in Hk.
Qed.

(** X9: rack assignment keeps the order of the fields of a machine record.
    Its top-level keys stay as they are, with "metadata" added last when it
    was missing; the keys of its metadata stay as they are, with "labels"
    added last when it was missing; and keys that were pairwise different
    still are. *)
Theorem rack_assignment_keeps_field_order (nodes : list yaml) (R : Z) :
  R ≠ 0 →
  Forall (λ node, machine_record node = true) nodes →
  ∀ (i : nat) d, nodes !! i = Some (YMap d) →
    ∃ d',
      (add_rack_labels nodes R).1 !! i = Some (YMap d') ∧
      Dict.keys d'
      = (if has_key "metadata" d then Dict.keys d
         else (Dict.keys d ++ ["metadata"])%list) ∧
      Dict.keys (sub_dict "metadata" d')
      = (if has_key "labels" (sub_dict "metadata" d)
         then Dict.keys (sub_dict "metadata" d)
         else (Dict.keys (sub_dict "metadata" d) ++ ["labels"])%list) ∧
      (NoDup (Dict.keys d) → NoDup (Dict.keys d')) ∧
      (NoDup (Dict.keys (sub_dict "metadata" d)) →
       NoDup (Dict.keys (sub_dict "metadata" d'))).
Proof.
  intros HR Hall i d Hi. unfold add_rack_labels.
  destruct (label_nodes_ok 0 R nodes Hall HR) as (nodes' & Hrun & Hlook).
  rewrite Hrun. cbn [fst].
  destruct (Hlook i _ Hi) as (d0 & [= <-] & Hi').
  unfold labelled in Hi'. eexists. split; [exact Hi'|].
  rewrite sub_dict_setitem.
  split; [apply keys_setitem|]. split; [apply keys_setitem|].
  split; apply NoDup_keys_setitem.
Qed.

(** X10: constraint injection keeps the order of the fields of a workload.
    The top-level keys of a record of kind "Pod" stay as they are, with
    "spec" added last when it was missing, and the keys of its spec stay as
    they are, with "topologySpreadConstraints" added last when it was
    missing. *)
Theorem constraint_injection_keeps_field_order (pods : list yaml)
    (key : string) (S : Z) (w : string) :
  Forall (λ pod, workload_record pod = true) pods →
  ∀ (i : nat) d, pods !! i = Some (YMap d) → is_pod (YMap d) = true →
    ∃ d',
      (add_topology_constraints pods key S w).1 !! i = Some (YMap d') ∧
      Dict.keys d'
      = (if has_key "spec" d then Dict.keys d
         else (Dict.keys d ++ ["spec"])%list) ∧
      Dict.keys (sub_dict "spec" d')
      = (if has_key "topologySpreadConstraints" (sub_dict "spec" d)
         then Dict.keys (sub_dict "spec" d)
         else (Dict.keys (sub_dict "spec" d)
                 ++ ["topologySpreadConstraints"])%list).
Proof.
  intros Hall i d Hi Hpod. unfold add_topology_constraints.
  destruct (constrain_pods_ok key S w pods Hall) as (pods' & Hrun & Hlook).
  rewrite Hrun. cbn [fst].
  destruct (Hlook i _ Hi) as (pod' & Hi' & Hbody).
  eapply Forall_lookup_1 in Hall; [|done].
  unfold workload_record in Hall. rewrite Hpod in Hall.
  rewrite constrain_pod_ok in Hbody by done. injection Hbody as <-.
  unfold constrained in Hi'. eexists. split; [exact Hi'|].
  by rewrite sub_dict_setitem, !keys_setitem.
Qed.

(** ** Running again with other parameters *)

Lemma label_nodes_again i R R' nodes :
  R ≠ 0 → R' ≠ 0 →
  Forall (λ node, machine_record node = true) nodes →
  label_nodes i R' (label_nodes i R nodes).1 = label_nodes i R' nodes.
Proof.
  intros HR HR' Hall. revert i.
  induction Hall as [|node rest Hrec Hall IH]; intros i; [done|].
  destruct node as [| | | | | |d]; try done.
  cbn [label_nodes]. rewrite !label_node_ok by done.
  specialize (IH (i + 1)).
  destruct (label_nodes (i + 1) R rest) as [rest' r]. cbn [fst] in *.
  destruct (labelled_again ("rack-" +:+ pretty (i `mod` R))
              ("rack-" +:+ pretty (i `mod` R')) d) as (d' & Hd & Heq & Hrec').
  cbn [label_nodes]. rewrite Hd, label_node_ok, Heq by done.
  by rewrite IH.
Qed.

(** X11: the last run wins.  On machine records, rack assignment with one
    modulus followed by rack assignment with another gives what the second
    alone gives: no trace of the first modulus is left. *)
Theorem rack_assignment_last_wins (nodes : list yaml) (R R' : Z) :
  R ≠ 0 → R' ≠ 0 →
  Forall (λ node, machine_record node = true) nodes →
  add_rack_labels (add_rack_labels nodes R).1 R' = add_rack_labels nodes R'.
Proof. apply label_nodes_again. Qed.

Lemma constrain_pods_again key S w key' S' w' pods :
  Forall (λ pod, workload_record pod = true) pods →
  constrain_pods key' S' w' (constrain_pods key S w pods).1
  = constrain_pods key' S' w' pods.
Proof.
  induction 1 as [|pod rest Hrec Hall IH]; [done|].
  cbn [constrain_pods].
  destruct pod as [| | | | | |d]; try done.
  destruct (is_pod (YMap d)) eqn:Hpod.
  - unfold workload_record in Hrec. rewrite Hpod in Hrec.
    rewrite !constrain_pod_ok by done.
    destruct (constrain_pods key S w rest) as [rest' r]. cbn [fst] in *.
    destruct (constrained_again (spread_constraints key S w)
                (spread_constraints key' S' w') d)
      as (d' & Hd & Heq & Hsp' & Hpod').
    cbn [constrain_pods]. rewrite Hd, constrain_pod_ok, Heq; [|congruence|done].
    by rewrite IH.
  - rewrite !constrain_pod_other_kind by done.
    destruct (constrain_pods key S w rest) as [rest' r]. cbn [fst] in *.
    cbn [constrain_pods]. rewrite constrain_pod_other_kind by done.
    by rewrite IH.
Qed.

(** X12: the last run wins.  On workload-list records, constraint
    injection followed by constraint injection with another topology key,
    skew bound or policy gives what the second alone gives: each workload
    still has one constraint, the new one. *)
Theorem constraint_injection_last_wins (pods : list yaml)
    (key : string) (S : Z) (w : string) (key' : string) (S' : Z)
    (w' : string) :
  Forall (λ pod, workload_record pod = true) pods →
  add_topology_constraints (add_topology_constraints pods key S w).1
    key' S' w'
  = add_topology_constraints pods key' S' w'.
Proof. apply constrain_pods_again. Qed.

Lemma rack_assignment_keeps_field_order_witness :
  (2 ≠ 0 ∧
   Forall (λ node, machine_record node = true) sample_nodes ∧
   sample_nodes !! 2%nat = Some (YMap [("kind", YStr "Node")])) ∧
  ∃ d',
    (add_rack_labels sample_nodes 2).1 !! 2%nat = Some (YMap d') ∧
    Dict.keys d'
    = (if has_key "metadata" [("kind", YStr "Node")]
       then Dict.keys [("kind", YStr "Node")]
       else (Dict.keys [("kind", YStr "Node")] ++ ["metadata"])%list) ∧
    Dict.keys (sub_dict "metadata" d')
    = (if has_key "labels" (sub_dict "metadata" [("kind", YStr "Node")])
       then Dict.keys (sub_dict "metadata" [("kind", YStr "Node")])
       else (Dict.keys (sub_dict "metadata" [("kind", YStr "Node")])
               ++ ["labels"])%list) ∧
    (NoDup (Dict.keys [("kind", YStr "Node")]) → NoDup (Dict.keys d')) ∧
    (NoDup (Dict.keys (sub_dict "metadata" [("kind", YStr "Node")])) →
     NoDup (Dict.keys (sub_dict "metadata" d'))).
Proof.
  split; [split; [lia|split; [repeat constructor|reflexivity]]|].
  apply (rack_assignment_keeps_field_order sample_nodes 2);
    [lia|repeat constructor|reflexivity].
Defined.

Lemma constraint_injection_keeps_field_order_witness :
  (Forall (λ pod, workload_record pod = true) sample_pods ∧
   sample_pods !! 1%nat = Some (YMap [("kind", YStr "Pod")]) ∧
   is_pod (YMap [("kind", YStr "Pod")]) = true) ∧
  ∃ d',
    (add_topology_constraints sample_pods "topology.kubernetes.io/rack" 3
       "ScheduleAnyway").1 !! 1%nat = Some (YMap d') ∧
    Dict.keys d'
    = (if has_key "spec" [("kind", YStr "Pod")]
       then Dict.keys [("kind", YStr "Pod")]
       else (Dict.keys [("kind", YStr "Pod")] ++ ["spec"])%list) ∧
    Dict.keys (sub_dict "spec" d')
    = (if has_key "topologySpreadConstraints"
            (sub_dict "spec" [("kind", YStr "Pod")])
       then Dict.keys (sub_dict "spec" [("kind", YStr "Pod")])
       else (Dict.keys (sub_dict "spec" [("kind", YStr "Pod")])
               ++ ["topologySpreadConstraints"])%list).
Proof.
  split; [split; [repeat constructor|split; reflexivity]|].
  apply (constraint_injection_keeps_field_order sample_pods
           "topology.kubernetes.io/rack" 3 "ScheduleAnyway");
    [repeat constructor|reflexivity|reflexivity].
Defined.

Lemma rack_assignment_last_wins_witness :
  (2 ≠ 0 ∧ 5 ≠ 0 ∧ Forall (λ node, machine_record node = true) sample_nodes) ∧
  add_rack_labels (add_rack_labels sample_nodes 2).1 5
  = add_rack_labels sample_nodes 5.
Proof.
  split; [split; [lia|split; [lia|repeat constructor]]|].
  apply (rack_assignment_last_wins sample_nodes 2 5);
    [lia|lia|repeat constructor].
Defined.

Lemma constraint_injection_last_wins_witness :
  Forall (λ pod, workload_record pod = true) sample_pods ∧
  add_topology_constraints
    (add_topology_constraints sample_pods "topology.kubernetes.io/rack" 3
       "ScheduleAnyway").1
    "kubernetes.io/hostname" 1 "DoNotSchedule"
  = add_topology_constraints sample_pods "kubernetes.io/hostname" 1
      "DoNotSchedule".
Proof.
  split; [repeat constructor|].
  apply (constraint_injection_last_wins sample_pods
           "topology.kubernetes.io/rack" 3 "ScheduleAnyway"
           "kubernetes.io/hostname" 1 "DoNotSchedule").
  repeat constructor.
Defined.

(** ** The labels of a run *)

(** The rack labels of the records after a run, in order. *)
Lemma rack_labels_of_run nodes R :
  R ≠ 0 →
  Forall (λ node, machine_record node = true) nodes →
  rack_label <$> (add_rack_labels nodes R).1
  = (λ j : nat, Some ("rack-" +:+ pretty (Z.of_nat j `mod` R)))
      <$> seq 0 (length nodes).
Proof.
  intros HR Hall. unfold add_rack_labels.
  destruct (label_nodes_ok 0 R nodes Hall HR) as (nodes' & Hrun & Hlook).
  pose proof (label_nodes_length 0 R nodes) as Hlen.
  rewrite Hrun in *. cbn [fst] in *.
  apply list_eq. intros j. rewrite !list_lookup_fmap.
  destruct (nodes !! j) as [node|] eqn:Hj.
  - destruct (Hlook j node Hj) as (d & _ & ->). rewrite Z.add_0_l.
    rewrite lookup_seq_lt by by eapply lookup_lt_Some.
    cbn. by rewrite rack_label_labelled.
  - apply lookup_ge_None in Hj.
    rewrite lookup_seq_ge by done.
    rewrite (proj2 (lookup_ge_None nodes' j)); [done|lia].
Qed.

(** Two counters below [|R|] with the same remainder are the same. *)
Lemma mod_inj_below (R a b : Z) :
  R ≠ 0 → 0 ≤ a < Z.abs R → 0 ≤ b < Z.abs R →
  a `mod` R = b `mod` R → a = b.
Proof.
  intros HR Ha Hb Hab.
  assert ((a - b) `mod` R = 0) as Hzero.
  { by rewrite Zminus_mod, Hab, Z.sub_diag, Zmod_0_l. }
  apply Z.mod_divide in Hzero as [q Hq]; [|done].
  assert (q = 0) as -> by (destruct (Z.abs_spec R) as [[? ?]|[? ?]]; nia).
  lia.
Qed.

(** A counter and its remainder by [|R|] have the same remainder by [R]. *)
Lemma mod_abs_mod (R j : Z) :
  R ≠ 0 → (j `mod` Z.abs R) `mod` R = j `mod` R.
Proof.
  intros HR. destruct (Z.abs_spec R) as [[_ ->]|[_ ->]].
  - by rewrite Z.mod_mod.
  - rewrite (Z.mod_eq j (- R)) by lia.
    replace (j - - R * (j `div` (- R))) with (j + (j `div` (- R)) * R)
      by lia.
    apply Z_mod_plus_full.
Qed.

(** X13: for every modulus but zero, negative ones too, the number of
    distinct rack labels after rack assignment on N machine records is
    min(N, |R|); with a negative modulus the number in every label lies
    in (R, 0], so the labels read "rack-0", "rack--1" and so on. *)
Theorem rack_values_any_modulus (nodes : list yaml) (R : Z) :
  R ≠ 0 →
  Forall (λ node, machine_record node = true) nodes →
  size (rack_values (add_rack_labels nodes R).1)
  = Nat.min (length nodes) (Z.to_nat (Z.abs R)) ∧
  (R < 0 →
   ∀ (i : nat) node', (add_rack_labels nodes R).1 !! i = Some node' →
     ∃ n, R < n ≤ 0 ∧ rack_label node' = Some ("rack-" +:+ pretty n)).
Proof.
  intros HR Hall. pose proof (rack_labels_of_run nodes R HR Hall) as Hlabels.
  split.
  - unfold rack_values.
    set (text := λ k : nat, "rack-" +:+ pretty (Z.of_nat k `mod` R)).
    set (m := Z.to_nat (Z.abs R)).
    assert ((list_to_set (omap rack_label (add_rack_labels nodes R).1)
             : gset string)
            = list_to_set (text <$> seq 0 (Nat.min (length nodes) m))) as ->.
    { apply set_eq. intros x.
      rewrite !elem_of_list_to_set, list_elem_of_omap, list_elem_of_fmap.
      split.
      - intros (node' & [i Hi]%list_elem_of_lookup & Hx).
        assert ((rack_label <$> (add_rack_labels nodes R).1) !! i
                = Some (Some x)) as Hxi.
        { by rewrite list_lookup_fmap, Hi, <- Hx. }
        rewrite Hlabels, list_lookup_fmap in Hxi.
        destruct (seq 0 (length nodes) !! i) as [j|] eqn:Hj; [|done].
        apply lookup_seq in Hj as [-> Hlt]. injection Hxi as <-.
        exists (i `mod` m)%nat. split.
        + unfold text. do 2 f_equal.
          rewrite Nat2Z.inj_mod. unfold m. rewrite Z2Nat.id by lia.
          by rewrite mod_abs_mod.
        + apply elem_of_seq. split; [lia|]. cbn.
          assert (m ≠ 0%nat) by (unfold m; lia).
          pose proof (Nat.mod_upper_bound i m).
          pose proof (Nat.Div0.mod_le i m). lia.
      - intros (k & -> & [_ Hk]%elem_of_seq). cbn in Hk.
        assert ((rack_label <$> (add_rack_labels nodes R).1) !! k
                = Some (Some (text k))) as Hxk.
        { rewrite Hlabels, list_lookup_fmap, lookup_seq_lt by lia. done. }
        rewrite list_lookup_fmap in Hxk.
        destruct ((add_rack_labels nodes R).1 !! k) as [node'|] eqn:Hk';
          [|done].
        exists node'. split; [by eapply list_elem_of_lookup_2|].
        by injection Hxk. }
    rewrite size_list_to_set, length_fmap, length_seq; [done|].
    apply NoDup_fmap_2_strong; [|apply NoDup_seq].
    intros a b [_ Ha]%elem_of_seq [_ Hb]%elem_of_seq Hab%rack_text_inj.
    cbn in Ha, Hb. apply Nat2Z.inj. apply (mod_inj_below R); [done|..|done];
      unfold m in *; lia.
  - intros Hneg i node' Hi.
    assert ((rack_label <$> (add_rack_labels nodes R).1) !! i
            = Some (rack_label node')) as Hxi.
    { by rewrite list_lookup_fmap, Hi. }
    rewrite Hlabels, list_lookup_fmap in Hxi.
    destruct (seq 0 (length nodes) !! i) as [j|] eqn:Hj; [|done].
    apply lookup_seq in Hj as [-> _]. injection Hxi as <-.
    exists (Z.of_nat i `mod` R). split; [|done].
    pose proof (Z.mod_neg_bound (Z.of_nat i) R Hneg). cbn. lia.
Qed.

Lemma rack_values_any_modulus_witness :
  (-2 ≠ 0 ∧ Forall (λ node, machine_record node = true) sample_nodes) ∧
  size (rack_values (add_rack_labels sample_nodes (-2)).1)
  = Nat.min (length sample_nodes) (Z.to_nat (Z.abs (-2))) ∧
  (-2 < 0 →
   ∀ (i : nat) node',
     (add_rack_labels sample_nodes (-2)).1 !! i = Some node' →
     ∃ n, -2 < n ≤ 0 ∧ rack_label node' = Some ("rack-" +:+ pretty n)).
Proof.
  split; [split; [lia|repeat constructor]|].
  apply (rack_values_any_modulus sample_nodes (-2)); [lia|repeat constructor].
Defined.

(** The counters below [n] with remainder [r]. *)
Lemma count_remainder (R r : Z) (n : nat) :
  1 ≤ R → 0 ≤ r < R →
  Z.of_nat (length (filter (λ j : nat, Z.of_nat j `mod` R = r) (seq 0 n)))
  = Z.of_nat n `div` R + (if r <? Z.of_nat n `mod` R then 1 else 0).
Proof.
  intros HR Hr. induction n as [|n IH].
  - cbn. rewrite Zdiv_0_l, Zmod_0_l. by destruct (Z.ltb_spec r 0); [lia|].
  - rewrite seq_S, filter_app, length_app, Nat2Z.inj_add, IH. cbn [Nat.add].
    pose proof (Z.div_mod (Z.of_nat n) R ltac:(lia)) as Hn.
    pose proof (Z.mod_pos_bound (Z.of_nat n) R ltac:(lia)) as Hm.
    remember (Z.of_nat n `div` R) as q eqn:Hq.
    remember (Z.of_nat n `mod` R) as m eqn:Hmod.
    assert (length (filter (λ j : nat, Z.of_nat j `mod` R = r) [n])
            = if decide (m = r) then 1%nat else 0%nat) as ->.
    { destruct (decide (m = r)) as [Heq|Hne].
      - rewrite filter_cons_True; [done|]. by rewrite <- Hmod.
      - rewrite filter_cons_False; [done|]. by rewrite <- Hmod. }
    destruct (decide (m + 1 < R)) as [Hlt|Hge].
    + assert (Z.of_nat (S n) `div` R = q) as ->.
      { symmetry. apply (Z.div_unique_pos _ _ _ (m + 1)); lia. }
      assert (Z.of_nat (S n) `mod` R = m + 1) as ->.
      { symmetry. apply (Z.mod_unique_pos _ _ q); lia. }
      destruct (decide (m = r)), (Z.ltb_spec r m), (Z.ltb_spec r (m + 1));
        lia.
    + assert (Z.of_nat (S n) `div` R = q + 1) as ->.
      { symmetry. apply (Z.div_unique_pos _ _ _ 0); lia. }
      assert (Z.of_nat (S n) `mod` R = 0) as ->.
      { symmetry. apply (Z.mod_unique_pos _ _ (q + 1)); lia. }
      destruct (decide (m = r)), (Z.ltb_spec r m), (Z.ltb_spec r 0); lia.
Qed.

(** X14: the racks are balanced.  After rack assignment with a modulus
    R >= 1 on N machine records, the records labelled "rack-r", for r in
    [0, R), number N div R, and one more when r < N mod R: two racks differ
    by one machine at most. *)
Theorem rack_assignment_balanced (nodes : list yaml) (R r : Z) :
  1 ≤ R →
  0 ≤ r < R →
  Forall (λ node, machine_record node = true) nodes →
  Z.of_nat
    (length
       (filter (λ node, rack_label node = Some ("rack-" +:+ pretty r))
          (add_rack_labels nodes R).1))
  = Z.of_nat (length nodes) `div` R
    + (if r <? Z.of_nat (length nodes) `mod` R then 1 else 0).
Proof.
  intros HR Hr Hall.
  pose proof (rack_labels_of_run nodes R ltac:(lia) Hall) as Hlabels.
  rewrite <- (count_remainder R r (length nodes)) by done. f_equal.
  transitivity
    (length (filter (λ o, o = Some ("rack-" +:+ pretty r))
               (rack_label <$> (add_rack_labels nodes R).1))).
  { generalize (add_rack_labels nodes R).1. intros l.
    induction l as [|node l IH]; [done|]. cbn [fmap list_fmap].
    destruct (decide (rack_label node = Some ("rack-" +:+ pretty r))).
    - rewrite !filter_cons_True by done. cbn. by rewrite IH.
    - by rewrite !filter_cons_False by done. }
  rewrite Hlabels. generalize (seq 0 (length nodes)). intros l.
  induction l as [|j l IH]; [done|]. cbn [fmap list_fmap].
  destruct (decide (Z.of_nat j `mod` R = r)) as [<-|Hne].
  - rewrite !filter_cons_True by done. cbn. by rewrite IH.
  - rewrite !filter_cons_False; [done|done|].
    intros Heq%(inj Some)%rack_text_inj. done.
Qed.

Lemma rack_assignment_balanced_witness :
  (1 ≤ 2 ∧ 0 ≤ 0 < 2 ∧
   Forall (λ node, machine_record node = true) sample_nodes) ∧
  Z.of_nat
    (length
       (filter (λ node, rack_label node = Some ("rack-" +:+ pretty 0))
          (add_rack_labels sample_nodes 2).1))
  = Z.of_nat (length sample_nodes) `div` 2
    + (if 0 <? Z.of_nat (length sample_nodes) `mod` 2 then 1 else 0).
Proof.
  split; [split; [lia|split; [lia|repeat constructor]]|].
  apply (rack_assignment_balanced sample_nodes 2 0);
    [lia|lia|repeat constructor].
Defined.

(** ** More on the orchestrator *)

(** No name matches both patterns. *)
Lemma patterns_disjoint (file_name : string) :
  glob_match "openb_node_list_" ".yaml" file_name = true →
  glob_match "openb_pod_list_" ".yaml" file_name = false.
Proof.
  intros [m ->]%glob_match_true.
  destruct (glob_match "openb_pod_list_" ".yaml" _) eqn:Hpod; [|done].
  apply glob_match_true in Hpod as [m' Hpod].
  by apply output_names_differ in Hpod.
Qed.

(** An output name is not an input name: it ends in the suffix and the
    parameter where the input name ends. *)
Lemma output_name_not_input (base suffix number : string) :
  String.get 0 suffix = Some "_"%char →
  base +:+ suffix +:+ number +:+ ".yaml" ≠ base +:+ ".yaml".
Proof.
  intros Hsuffix Heq. apply (inj (String.app base)) in Heq.
  destruct suffix as [|c suffix]; [done|]. cbn in Hsuffix.
  injection Hsuffix as ->.
  apply (f_equal (String.get 0)) in Heq. done.
Qed.

Section OrchestratorMore.

Variable safe_load_all : string → outcome (list yaml).
Variable dump_all : list yaml → string.

(** [load] looks at the files only. *)
Lemma load_stdout (w : world) (out : list string) (p : Path) :
  load safe_load_all p {| fs := fs w; stdout := out |}
  = ({| fs := fs w; stdout := out |}, (load safe_load_all p w).2).
Proof.
  unfold load, read_text. py_unfold. cbn [fs fs_files].
  destruct (fs_files (fs w) !! (parent p, name p)); [|done].
  by destruct (safe_load_all _).
Qed.

(** X15: the two patterns never pick the same file: no name matches both
    "openb_node_list_*.yaml" and "openb_pod_list_*.yaml", so the machine
    file and the workload file a run finds are different files. *)
Theorem found_files_differ (w : world) (input_dir : string)
    (node_file pod_file : Path) :
  head (glob input_dir "openb_node_list_" ".yaml" w) = Some node_file →
  head (glob input_dir "openb_pod_list_" ".yaml" w) = Some pod_file →
  name node_file ≠ name pod_file ∧
  glob_match "openb_pod_list_" ".yaml" (name node_file) = false ∧
  glob_match "openb_node_list_" ".yaml" (name pod_file) = false.
Proof.
  intros [_ Hnode]%glob_parent [_ Hpod]%glob_parent.
  pose proof (patterns_disjoint _ Hnode) as Hnp.
  split; [|split; [done|]].
  - intros Heq. rewrite Heq in Hnp. congruence.
  - destruct (glob_match "openb_node_list_" ".yaml" (name pod_file)) eqn:H;
      [|done].
    apply patterns_disjoint in H. congruence.
Qed.

(** X16: a failure before the first write leaves the file system as it
    was.  When both files are found and the machine file does not load, or
    it loads and the workload file does not, or both load and rack
    assignment raises, [process_directory] ends with that exception and
    has written nothing; the workload file is loaded before any machine
    is labelled. *)
Theorem process_directory_fails_before_writing (w : world)
    (input_dir : string) (rack_mod max_skew : Z) (node_file pod_file : Path)
    (e : exn) :
  head (glob input_dir "openb_node_list_" ".yaml" w) = Some node_file →
  head (glob input_dir "openb_pod_list_" ".yaml" w) = Some pod_file →
  (load safe_load_all node_file w).2 = Raise e ∨
  (∃ nodes,
     (load safe_load_all node_file w).2 = Return nodes ∧
     ((load safe_load_all pod_file w).2 = Raise e ∨
      ∃ pods,
        (load safe_load_all pod_file w).2 = Return pods ∧
        (add_rack_labels nodes rack_mod).2 = Raise e)) →
  ∃ w',
    process_directory safe_load_all dump_all input_dir rack_mod max_skew w
    = (w', Raise e) ∧
    fs w' = fs w.
Proof.
  intros Hnode Hpod Hfail.
  unfold process_directory, is_dir, glob_first.
  unfold mbind at 1 2 3. unfold py_bind at 1 2 3.
  rewrite bool_decide_true by by eapply glob_is_dir.
  cbn [negb]. rewrite Hnode, Hpod.
  rewrite (py_bind_return _ _ w _ () (print_eq _ w)).
  rewrite (py_bind_return _ _ _ _ () (print_eq _ _)). cbn [fs stdout].
  remember ((stdout w ++ ["✅ Found Node YAML: " +:+ path_str node_file]) ++
            ["✅ Found Pod YAML:  " +:+ path_str pod_file])%list as out.
  pose proof (load_stdout w out node_file) as Hln.
  pose proof (load_stdout w out pod_file) as Hlp.
  destruct Hfail as [Hn|(nodes & Hn & Hrest)].
  { rewrite Hn in Hln. rewrite (py_bind_raise _ _ _ _ _ Hln). by eexists. }
  rewrite Hn in Hln. rewrite (py_bind_return _ _ _ _ _ Hln).
  destruct Hrest as [Hp|(pods & Hp & Hrack)].
  { rewrite Hp in Hlp. rewrite (py_bind_raise _ _ _ _ _ Hlp). by eexists. }
  rewrite Hp in Hlp. rewrite (py_bind_return _ _ _ _ _ Hlp).
  destruct (add_rack_labels nodes rack_mod) as [nodes' r] eqn:Hrun.
  cbn [snd] in Hrack. subst r.
  unfold run_local. py_unfold. by eexists.
Qed.

(** The whole state after a run that returns. *)
Lemma process_directory_ok_world (w : world) (input_dir : string)
    (rack_mod max_skew : Z) (node_file pod_file : Path)
    (node_text pod_text : string) (nodes pods nodes' pods' : list yaml)
    (entries : list string) :
  fs_dirs (fs w) !! input_dir = Some entries →
  head (glob input_dir "openb_node_list_" ".yaml" w) = Some node_file →
  head (glob input_dir "openb_pod_list_" ".yaml" w) = Some pod_file →
  fs_files (fs w) !! (parent node_file, name node_file) = Some node_text →
  safe_load_all node_text = Return nodes →
  fs_files (fs w) !! (parent pod_file, name pod_file) = Some pod_text →
  safe_load_all pod_text = Return pods →
  add_rack_labels nodes rack_mod = (nodes', Return ()) →
  add_topology_constraints pods "topology.kubernetes.io/rack" max_skew
    default_when_unsatisfiable = (pods', Return ()) →
  let node_out :=
    stem node_file +:+ "_with_rack-quantity" +:+ pretty rack_mod +:+ ".yaml" in
  let pod_out :=
    stem pod_file +:+ "_with_skew-value" +:+ pretty max_skew +:+ ".yaml" in
  ∃ out,
    process_directory safe_load_all dump_all input_dir rack_mod max_skew w
    = ({| fs :=
            {| fs_dirs :=
                 <[input_dir := listed pod_out (listed node_out entries)]>
                   (<[input_dir := listed node_out entries]>
                      (fs_dirs (fs w)));
               fs_files :=
                 <[(input_dir, pod_out) := dump_all pods']>
                   (<[(input_dir, node_out) := dump_all nodes']>
                      (fs_files (fs w))) |};
          stdout := out |},
       Return ()).
Proof.
  intros Hdir Hnode Hpod Hnt Hnodes Hpt Hpods Hrack Hskew node_out pod_out.
  rewrite (process_directory_found safe_load_all dump_all w input_dir
             rack_mod max_skew node_file pod_file node_text pod_text nodes
             pods); try done.
  apply glob_parent in Hnode as [Hnp _]. apply glob_parent in Hpod as [Hpp _].
  rewrite Hrack, Hskew. unfold run_local, write_text, print, with_name.
  py_unfold. cbn [fs stdout fs_files fs_dirs parent name].
  rewrite Hnp, Hpp, Hdir. cbn [fs stdout fs_files fs_dirs].
  rewrite lookup_insert_eq. by eexists.
Qed.

(** A run that stops in constraint injection. *)
Lemma process_directory_injection_raises (w : world) (input_dir : string)
    (rack_mod max_skew : Z) (node_file pod_file : Path)
    (node_text pod_text : string) (nodes pods nodes' pods' : list yaml)
    (e : exn) :
  head (glob input_dir "openb_node_list_" ".yaml" w) = Some node_file →
  head (glob input_dir "openb_pod_list_" ".yaml" w) = Some pod_file →
  fs_files (fs w) !! (parent node_file, name node_file) = Some node_text →
  safe_load_all node_text = Return nodes →
  fs_files (fs w) !! (parent pod_file, name pod_file) = Some pod_text →
  safe_load_all pod_text = Return pods →
  add_rack_labels nodes rack_mod = (nodes', Return ()) →
  add_topology_constraints pods "topology.kubernetes.io/rack" max_skew
    default_when_unsatisfiable = (pods', Raise e) →
  ∃ w',
    process_directory safe_load_all dump_all input_dir rack_mod max_skew w
    = (w', Raise e) ∧
    fs_files (fs w')
    = <[(input_dir,
         stem node_file +:+ "_with_rack-quantity" +:+ pretty rack_mod
           +:+ ".yaml") := dump_all nodes']> (fs_files (fs w)).
Proof.
  intros Hnode Hpod Hnt Hnodes Hpt Hpods Hrack Hskew.
  rewrite (process_directory_found safe_load_all dump_all w input_dir
             rack_mod max_skew node_file pod_file node_text pod_text nodes
             pods); try done.
  2:{ by eapply glob_is_dir. }
  destruct (glob_is_dir _ _ _ _ _ Hnode) as [entries Hdir].
  apply glob_parent in Hnode as [Hnp _].
  rewrite Hrack, Hskew. unfold run_local, write_text, print, with_name.
  py_unfold. cbn [fs stdout fs_files fs_dirs parent name].
  rewrite Hnp, Hdir. cbn [fs stdout fs_files fs_dirs]. by eexists.
Qed.

(** X17: [process_directory] is not all or nothing.  When both files load
    and rack assignment returns but constraint injection raises (a
    workload whose spec is null, say), the run ends with that exception
    after it has written the machine output: that file is there with the
    labelled machines, and no other file has changed; in particular there
    is no workload output. *)
Theorem process_directory_partial_output (w : world) (input_dir : string)
    (R S : Z) (node_file pod_file : Path) (node_text pod_text : string)
    (nodes pods : list yaml) (e : exn) :
  head (glob input_dir "openb_node_list_" ".yaml" w) = Some node_file →
  head (glob input_dir "openb_pod_list_" ".yaml" w) = Some pod_file →
  fs_files (fs w) !! (parent node_file, name node_file) = Some node_text →
  safe_load_all node_text = Return nodes →
  fs_files (fs w) !! (parent pod_file, name pod_file) = Some pod_text →
  safe_load_all pod_text = Return pods →
  (add_rack_labels nodes R).2 = Return () →
  (add_topology_constraints pods "topology.kubernetes.io/rack" S
     "ScheduleAnyway").2 = Raise e →
  ∃ w',
    process_directory safe_load_all dump_all input_dir R S w
    = (w', Raise e) ∧
    fs_files (fs w')
      !! (input_dir,
          stem node_file +:+ "_with_rack-quantity" +:+ pretty R +:+ ".yaml")
    = Some (dump_all (add_rack_labels nodes R).1) ∧
    ∀ dir file_name,
      (dir, file_name)
      ≠ (input_dir,
         stem node_file +:+ "_with_rack-quantity" +:+ pretty R +:+ ".yaml") →
      fs_files (fs w') !! (dir, file_name)
      = fs_files (fs w) !! (dir, file_name).
Proof.
  intros Hnode Hpod Hnt Hnodes Hpt Hpods Hrack Hskew.
  destruct (add_rack_labels nodes R) as [nodes' r] eqn:Hrun.
  cbn [snd fst] in *. subst r.
  destruct (add_topology_constraints pods "topology.kubernetes.io/rack" S
              "ScheduleAnyway") as [pods' r] eqn:Hrun'.
  cbn [snd] in Hskew. subst r.
  destruct (process_directory_injection_raises w input_dir R S node_file
              pod_file node_text pod_text nodes pods nodes' pods' e
              Hnode Hpod Hnt Hnodes Hpt Hpods Hrun Hrun')
    as (w' & Hw' & Hfiles).
  exists w'. rewrite Hfiles. split; [done|]. split.
  - by rewrite lookup_insert_eq.
  - intros dir file_name Hne. by rewrite lookup_insert_ne.
Qed.

(** X18: a run that returns changes two files and nothing else: every
    file but the two outputs has the text it had, the two input files
    among them, since no output name is an input name; and every other
    directory lists what it listed. *)
Theorem process_directory_keeps_other_files (w : world) (input_dir : string)
    (R S : Z) (node_file pod_file : Path) (node_text pod_text : string)
    (nodes pods : list yaml) :
  head (glob input_dir "openb_node_list_" ".yaml" w) = Some node_file →
  head (glob input_dir "openb_pod_list_" ".yaml" w) = Some pod_file →
  fs_files (fs w) !! (parent node_file, name node_file) = Some node_text →
  safe_load_all node_text = Return nodes →
  fs_files (fs w) !! (parent pod_file, name pod_file) = Some pod_text →
  safe_load_all pod_text = Return pods →
  R ≠ 0 →
  Forall (λ node, machine_record node = true) nodes →
  Forall (λ pod, workload_record pod = true) pods →
  ∃ w',
    process_directory safe_load_all dump_all input_dir R S w
    = (w', Return ()) ∧
    (∀ dir file_name,
       (dir, file_name)
       ≠ (input_dir,
          stem node_file +:+ "_with_rack-quantity" +:+ pretty R +:+ ".yaml") →
       (dir, file_name)
       ≠ (input_dir,
          stem pod_file +:+ "_with_skew-value" +:+ pretty S +:+ ".yaml") →
       fs_files (fs w') !! (dir, file_name)
       = fs_files (fs w) !! (dir, file_name)) ∧
    fs_files (fs w') !! (input_dir, name node_file) = Some node_text ∧
    fs_files (fs w') !! (input_dir, name pod_file) = Some pod_text ∧
    (∀ dir, dir ≠ input_dir →
            fs_dirs (fs w') !! dir = fs_dirs (fs w) !! dir).
Proof.
  intros Hnode Hpod Hnt Hnodes Hpt Hpods HR Hmachines Hworkloads.
  destruct (label_nodes_ok 0 R nodes Hmachines HR) as (nodes' & Hrack & _).
  destruct (constrain_pods_ok "topology.kubernetes.io/rack" S
              default_when_unsatisfiable pods Hworkloads)
    as (pods' & Hskew & _).
  destruct (glob_is_dir _ _ _ _ _ Hnode) as [entries Hdir].
  destruct (process_directory_ok_world w input_dir R S node_file pod_file
              node_text pod_text nodes pods nodes' pods' entries
              Hdir Hnode Hpod Hnt Hnodes Hpt Hpods Hrack Hskew)
    as (out & Hrun).
  destruct (glob_parent _ _ _ _ _ Hnode) as [Hnp Hnm].
  destruct (glob_parent _ _ _ _ _ Hpod) as [Hpp Hpm].
  destruct (stem_glob_match (parent node_file) "openb_node_list_"
              (name node_file) ltac:(done) Hnm) as (mn & Hnname & Hnstem).
  destruct (stem_glob_match (parent pod_file) "openb_pod_list_"
              (name pod_file) ltac:(done) Hpm) as (mp & Hpname & Hpstem).
  assert (stem node_file = "openb_node_list_" +:+ mn) as Hns
    by by destruct node_file.
  assert (stem pod_file = "openb_pod_list_" +:+ mp) as Hps
    by by destruct pod_file.
  eexists. split; [exact Hrun|]. cbn [fs fs_files fs_dirs].
  assert (∀ dir file_name,
            (dir, file_name)
            ≠ (input_dir,
               stem node_file +:+ "_with_rack-quantity" +:+ pretty R
                 +:+ ".yaml") →
            (dir, file_name)
            ≠ (input_dir,
               stem pod_file +:+ "_with_skew-value" +:+ pretty S
                 +:+ ".yaml") →
            (<[(input_dir,
                stem pod_file +:+ "_with_skew-value" +:+ pretty S
                  +:+ ".yaml") := dump_all pods']>
               (<[(input_dir,
                   stem node_file +:+ "_with_rack-quantity" +:+ pretty R
                     +:+ ".yaml") := dump_all nodes']> (fs_files (fs w))))
              !! (dir, file_name)
            = fs_files (fs w) !! (dir, file_name)) as Hother.
  { intros dir file_name Hn Hp. by rewrite !lookup_insert_ne. }
  split; [exact Hother|]. split; [|split].
  - rewrite Hother; [by rewrite <- Hnp| |]; intros [= Heq].
    + rewrite Hns, Hnname, string_app_assoc in Heq.
      symmetry in Heq. by apply output_name_not_input in Heq.
    + rewrite Hps, Hnname, <- !string_app_assoc in Heq.
      by apply output_names_differ in Heq.
  - rewrite Hother; [by rewrite <- Hpp| |]; intros [= Heq].
    + rewrite Hns, Hpname, <- !string_app_assoc in Heq.
      symmetry in Heq. by apply output_names_differ in Heq.
    + rewrite Hps, Hpname, string_app_assoc in Heq.
      symmetry in Heq. by apply output_name_not_input in Heq.
  - intros dir Hne. by rewrite !lookup_insert_ne.
Qed.

Lemma elem_of_listed_same file_name entries :
  file_name ∈ listed file_name entries.
Proof.
  unfold listed. case_bool_decide; [done|].
  apply elem_of_app. right. by apply list_elem_of_singleton.
Qed.

Lemma elem_of_listed_old file_name x entries :
  x ∈ entries → x ∈ listed file_name entries.
Proof.
  unfold listed. case_bool_decide; [done|]. intros Hx.
  apply elem_of_app. by left.
Qed.

Lemma elem_of_glob (w : world) dir prefix suffix entries file_name :
  fs_dirs (fs w) !! dir = Some entries →
  file_name ∈ entries →
  glob_match prefix suffix file_name = true →
  {| parent := dir; name := file_name |} ∈ glob dir prefix suffix w.
Proof.
  intros Hdir Hin Hmatch. unfold glob. rewrite Hdir. cbn [default].
  apply list_elem_of_fmap. exists file_name. split; [done|].
  by apply list_elem_of_filter.
Qed.

Lemma glob_head_listed (w : world) dir prefix suffix entries p :
  fs_dirs (fs w) !! dir = Some entries →
  head (glob dir prefix suffix w) = Some p →
  p = {| parent := dir; name := name p |} ∧ name p ∈ entries.
Proof.
  intros Hdir Hhead. unfold glob in Hhead. rewrite Hdir in Hhead.
  cbn [default] in Hhead.
  apply head_Some_elem_of, list_elem_of_fmap in Hhead as (n & -> & Hn).
  by apply list_elem_of_filter in Hn as [_ Hn].
Qed.

(** X19: the outputs of a run match the patterns of its inputs.  After a
    run that returns, the directory lists the machine output beside the
    machine input and both match "openb_node_list_*.yaml", and likewise for
    the workload files; so from then on each pattern has two matches at
    least, and which of them a later run takes is up to the order in
    which the directory is enumerated. *)
Theorem outputs_match_input_patterns (w : world) (input_dir : string)
    (R S : Z) (node_file pod_file : Path) (node_text pod_text : string)
    (nodes pods : list yaml) :
  head (glob input_dir "openb_node_list_" ".yaml" w) = Some node_file →
  head (glob input_dir "openb_pod_list_" ".yaml" w) = Some pod_file →
  fs_files (fs w) !! (parent node_file, name node_file) = Some node_text →
  safe_load_all node_text = Return nodes →
  fs_files (fs w) !! (parent pod_file, name pod_file) = Some pod_text →
  safe_load_all pod_text = Return pods →
  R ≠ 0 →
  Forall (λ node, machine_record node = true) nodes →
  Forall (λ pod, workload_record pod = true) pods →
  ∃ w' node_output_file pod_output_file,
    process_directory safe_load_all dump_all input_dir R S w
    = (w', Return ()) ∧
    node_output_file
    = with_name node_file
        (stem node_file +:+ "_with_rack-quantity" +:+ pretty R +:+ ".yaml") ∧
    pod_output_file
    = with_name pod_file
        (stem pod_file +:+ "_with_skew-value" +:+ pretty S +:+ ".yaml") ∧
    node_output_file ≠ node_file ∧
    pod_output_file ≠ pod_file ∧
    node_file ∈ glob input_dir "openb_node_list_" ".yaml" w' ∧
    node_output_file ∈ glob input_dir "openb_node_list_" ".yaml" w' ∧
    pod_file ∈ glob input_dir "openb_pod_list_" ".yaml" w' ∧
    pod_output_file ∈ glob input_dir "openb_pod_list_" ".yaml" w'.
Proof.
  intros Hnode Hpod Hnt Hnodes Hpt Hpods HR Hmachines Hworkloads.
  destruct (label_nodes_ok 0 R nodes Hmachines HR) as (nodes' & Hrack & _).
  destruct (constrain_pods_ok "topology.kubernetes.io/rack" S
              default_when_unsatisfiable pods Hworkloads)
    as (pods' & Hskew & _).
  destruct (glob_is_dir _ _ _ _ _ Hnode) as [entries Hdir].
  destruct (process_directory_ok_world w input_dir R S node_file pod_file
              node_text pod_text nodes pods nodes' pods' entries
              Hdir Hnode Hpod Hnt Hnodes Hpt Hpods Hrack Hskew)
    as (out & Hrun).
  destruct (glob_parent _ _ _ _ _ Hnode) as [Hnp Hnm].
  destruct (glob_parent _ _ _ _ _ Hpod) as [Hpp Hpm].
  destruct (glob_head_listed _ _ _ _ _ _ Hdir Hnode) as [Hnrec Hnin].
  destruct (glob_head_listed _ _ _ _ _ _ Hdir Hpod) as [Hprec Hpin].
  destruct (stem_glob_match (parent node_file) "openb_node_list_"
              (name node_file) ltac:(done) Hnm) as (mn & Hnname & Hnstem).
  destruct (stem_glob_match (parent pod_file) "openb_pod_list_"
              (name pod_file) ltac:(done) Hpm) as (mp & Hpname & Hpstem).
  assert (stem node_file = "openb_node_list_" +:+ mn) as Hns
    by by destruct node_file.
  assert (stem pod_file = "openb_pod_list_" +:+ mp) as Hps
    by by destruct pod_file.
  set (node_out :=
         stem node_file +:+ "_with_rack-quantity" +:+ pretty R +:+ ".yaml")
    in *.
  set (pod_out :=
         stem pod_file +:+ "_with_skew-value" +:+ pretty S +:+ ".yaml") in *.
  assert (glob_match "openb_node_list_" ".yaml" node_out = true) as Hnom.
  { apply glob_match_true. exists (mn +:+ "_with_rack-quantity" +:+ pretty R).
    unfold node_out. by rewrite Hns, <- !string_app_assoc. }
  assert (glob_match "openb_pod_list_" ".yaml" pod_out = true) as Hpom.
  { apply glob_match_true. exists (mp +:+ "_with_skew-value" +:+ pretty S).
    unfold pod_out. by rewrite Hps, <- !string_app_assoc. }
  eexists _, (with_name node_file node_out), (with_name pod_file pod_out).
  split; [exact Hrun|]. split; [done|]. split; [done|].
  match goal with
  | |- context [glob _ _ _ ?w1] =>
      assert (fs_dirs (fs w1) !! input_dir
              = Some (listed pod_out (listed node_out entries))) as Hdir'
        by (cbn [fs fs_dirs]; by rewrite lookup_insert_eq)
  end.
  split.
  { intros Heq. apply (f_equal name) in Heq. cbn [with_name name] in Heq.
    unfold node_out in Heq.
    rewrite Hns, Hnname, (string_app_assoc _ mn ".yaml") in Heq.
    by apply output_name_not_input in Heq. }
  split.
  { intros Heq. apply (f_equal name) in Heq. cbn [with_name name] in Heq.
    unfold pod_out in Heq.
    rewrite Hps, Hpname, (string_app_assoc _ mp ".yaml") in Heq.
    by apply output_name_not_input in Heq. }
  split.
  { rewrite Hnrec. eapply elem_of_glob; [exact Hdir'| |done].
    by do 2 apply elem_of_listed_old. }
  split.
  { unfold with_name. rewrite Hnp.
    eapply elem_of_glob; [exact Hdir'| |done].
    apply elem_of_listed_old, elem_of_listed_same. }
  split.
  { rewrite Hprec. eapply elem_of_glob; [exact Hdir'| |done].
    by do 2 apply elem_of_listed_old. }
  unfold with_name. rewrite Hpp.
  eapply elem_of_glob; [exact Hdir'| |done]. apply elem_of_listed_same.
Qed.

End OrchestratorMore.

Lemma found_files_differ_witness :
  (head (glob "data" "openb_node_list_" ".yaml" sample_world)
   = Some sample_node_file ∧
   head (glob "data" "openb_pod_list_" ".yaml" sample_world)
   = Some sample_pod_file) ∧
  name sample_node_file ≠ name sample_pod_file ∧
  glob_match "openb_pod_list_" ".yaml" (name sample_node_file) = false ∧
  glob_match "openb_node_list_" ".yaml" (name sample_pod_file) = false.
Proof.
  split; [split; vm_compute; reflexivity|].
  apply (found_files_differ sample_world "data" sample_node_file
           sample_pod_file); vm_compute; reflexivity.
Defined.

Lemma process_directory_fails_before_writing_witness :
  (head (glob "data" "openb_node_list_" ".yaml" sample_world_unreadable)
   = Some sample_node_file ∧
   head (glob "data" "openb_pod_list_" ".yaml" sample_world_unreadable)
   = Some sample_pod_file ∧
   (load sample_load sample_node_file sample_world_unreadable).2
   = Raise YAMLError) ∧
  ∃ w',
    process_directory sample_load sample_dump "data" 2 3
      sample_world_unreadable = (w', Raise YAMLError) ∧
    fs w' = fs sample_world_unreadable.
Proof.
  split; [repeat split; vm_compute; reflexivity|].
  apply (process_directory_fails_before_writing sample_load sample_dump
           sample_world_unreadable "data" 2 3 sample_node_file
           sample_pod_file YAMLError);
    [vm_compute; reflexivity|vm_compute; reflexivity|].
  left. vm_compute. reflexivity.
Defined.

Lemma process_directory_partial_output_witness :
  (head (glob "data" "openb_node_list_" ".yaml" sample_world)
   = Some sample_node_file ∧
   head (glob "data" "openb_pod_list_" ".yaml" sample_world)
   = Some sample_pod_file ∧
   fs_files (fs sample_world)
     !! (parent sample_node_file, name sample_node_file) = Some "machines" ∧
   sample_load_null_spec "machines" = Return sample_nodes ∧
   fs_files (fs sample_world)
     !! (parent sample_pod_file, name sample_pod_file) = Some "workloads" ∧
   sample_load_null_spec "workloads"
   = Return [YMap [("kind", YStr "Pod"); ("spec", YNull)]] ∧
   (add_rack_labels sample_nodes 2).2 = Return () ∧
   (add_topology_constraints [YMap [("kind", YStr "Pod"); ("spec", YNull)]]
      "topology.kubernetes.io/rack" 3 "ScheduleAnyway").2
   = Raise TypeError) ∧
  ∃ w',
    process_directory sample_load_null_spec sample_dump "data" 2 3
      sample_world = (w', Raise TypeError) ∧
    fs_files (fs w')
      !! ("data",
          stem sample_node_file +:+ "_with_rack-quantity" +:+ pretty 2
            +:+ ".yaml")
    = Some (sample_dump (add_rack_labels sample_nodes 2).1) ∧
    ∀ dir file_name,
      (dir, file_name)
      ≠ ("data",
         stem sample_node_file +:+ "_with_rack-quantity" +:+ pretty 2
           +:+ ".yaml") →
      fs_files (fs w') !! (dir, file_name)
      = fs_files (fs sample_world) !! (dir, file_name).
Proof.
  split; [repeat split; vm_compute; reflexivity|].
  apply (process_directory_partial_output sample_load_null_spec sample_dump
           sample_world "data" 2 3 sample_node_file sample_pod_file
           "machines" "workloads" sample_nodes
           [YMap [("kind", YStr "Pod"); ("spec", YNull)]] TypeError);
    vm_compute; reflexivity.
Defined.

Lemma process_directory_keeps_other_files_witness :
  (head (glob "data" "openb_node_list_" ".yaml" sample_world)
   = Some sample_node_file ∧
   head (glob "data" "openb_pod_list_" ".yaml" sample_world)
   = Some sample_pod_file ∧
   fs_files (fs sample_world)
     !! (parent sample_node_file, name sample_node_file) = Some "machines" ∧
   sample_load "machines" = Return sample_nodes ∧
   fs_files (fs sample_world)
     !! (parent sample_pod_file, name sample_pod_file) = Some "workloads" ∧
   sample_load "workloads" = Return sample_pods ∧
   2 ≠ 0 ∧
   Forall (λ node, machine_record node = true) sample_nodes ∧
   Forall (λ pod, workload_record pod = true) sample_pods) ∧
  ∃ w',
    process_directory sample_load sample_dump "data" 2 3 sample_world
    = (w', Return ()) ∧
    (∀ dir file_name,
       (dir, file_name)
       ≠ ("data",
          stem sample_node_file +:+ "_with_rack-quantity" +:+ pretty 2
            +:+ ".yaml") →
       (dir, file_name)
       ≠ ("data",
          stem sample_pod_file +:+ "_with_skew-value" +:+ pretty 3
            +:+ ".yaml") →
       fs_files (fs w') !! (dir, file_name)
       = fs_files (fs sample_world) !! (dir, file_name)) ∧
    fs_files (fs w') !! ("data", name sample_node_file) = Some "machines" ∧
    fs_files (fs w') !! ("data", name sample_pod_file) = Some "workloads" ∧
    (∀ dir, dir ≠ "data" →
            fs_dirs (fs w') !! dir = fs_dirs (fs sample_world) !! dir).
Proof.
  split.
  { repeat split; try (vm_compute; reflexivity); try lia;
      repeat constructor. }
  apply (process_directory_keeps_other_files sample_load sample_dump
           sample_world "data" 2 3 sample_node_file sample_pod_file
           "machines" "workloads" sample_nodes sample_pods);
    try (vm_compute; reflexivity); try lia; repeat constructor.
Defined.

Lemma outputs_match_input_patterns_witness :
  (head (glob "data" "openb_node_list_" ".yaml" sample_world)
   = Some sample_node_file ∧
   head (glob "data" "openb_pod_list_" ".yaml" sample_world)
   = Some sample_pod_file ∧
   fs_files (fs sample_world)
     !! (parent sample_node_file, name sample_node_file) = Some "machines" ∧
   sample_load "machines" = Return sample_nodes ∧
   fs_files (fs sample_world)
     !! (parent sample_pod_file, name sample_pod_file) = Some "workloads" ∧
   sample_load "workloads" = Return sample_pods ∧
   2 ≠ 0 ∧
   Forall (λ node, machine_record node = true) sample_nodes ∧
   Forall (λ pod, workload_record pod = true) sample_pods) ∧
  ∃ w' node_output_file pod_output_file,
    process_directory sample_load sample_dump "data" 2 3 sample_world
    = (w', Return ()) ∧
    node_output_file
    = with_name sample_node_file
        (stem sample_node_file +:+ "_with_rack-quantity" +:+ pretty 2
           +:+ ".yaml") ∧
    pod_output_file
    = with_name sample_pod_file
        (stem sample_pod_file +:+ "_with_skew-value" +:+ pretty 3
           +:+ ".yaml") ∧
    node_output_file ≠ sample_node_file ∧
    pod_output_file ≠ sample_pod_file ∧
    sample_node_file ∈ glob "data" "openb_node_list_" ".yaml" w' ∧
    node_output_file ∈ glob "data" "openb_node_list_" ".yaml" w' ∧
    sample_pod_file ∈ glob "data" "openb_pod_list_" ".yaml" w' ∧
    pod_output_file ∈ glob "data" "openb_pod_list_" ".yaml" w'.
Proof.
  split.
  { repeat split; try (vm_compute; reflexivity); try lia;
      repeat constructor. }
  apply (outputs_match_input_patterns sample_load sample_dump sample_world
           "data" 2 3 sample_node_file sample_pod_file "machines" "workloads"
           sample_nodes sample_pods);
    try (vm_compute; reflexivity); try lia; repeat constructor.
Defined.

(** ** Runs one after the other *)

Lemma string_app_cancel_r (s s' t : string) : s +:+ t = s' +:+ t → s = s'.
Proof.
  revert s'. induction s as [|a s IH]; intros [|a' s'] Heq; [done|..].
  - apply (f_equal String.length) in Heq.
    rewrite !string_length_app in Heq. cbn in Heq. lia.
  - apply (f_equal String.length) in Heq.
    rewrite !string_length_app in Heq. cbn in Heq. lia.
  - change (String a (s +:+ t) = String a' (s' +:+ t)) in Heq.
    injection Heq as -> Heq. by rewrite (IH s' Heq).
Qed.

(** Different parameters give different output names. *)
Lemma output_name_inj (base suffix : string) (n n' : Z) :
  base +:+ suffix +:+ pretty n +:+ ".yaml"
  = base +:+ suffix +:+ pretty n' +:+ ".yaml" → n = n'.
Proof.
  intros Heq. apply (inj (String.app base)), (inj (String.app suffix)) in Heq.
  apply string_app_cancel_r in Heq. by apply (inj pretty).
Qed.

(** The names of the files found and of the files written are all
    different. *)
Lemma names_apart (node_file pod_file : Path) (R S : Z) :
  glob_match "openb_node_list_" ".yaml" (name node_file) = true →
  glob_match "openb_pod_list_" ".yaml" (name pod_file) = true →
  let node_out :=
    stem node_file +:+ "_with_rack-quantity" +:+ pretty R +:+ ".yaml" in
  let pod_out :=
    stem pod_file +:+ "_with_skew-value" +:+ pretty S +:+ ".yaml" in
  name node_file ≠ node_out ∧ name node_file ≠ pod_out ∧
  name pod_file ≠ node_out ∧ name pod_file ≠ pod_out ∧
  node_out ≠ pod_out.
Proof.
  intros Hnm Hpm node_out pod_out. unfold node_out, pod_out.
  destruct (stem_glob_match (parent node_file) "openb_node_list_"
              (name node_file) ltac:(done) Hnm) as (mn & Hnname & Hnstem).
  destruct (stem_glob_match (parent pod_file) "openb_pod_list_"
              (name pod_file) ltac:(done) Hpm) as (mp & Hpname & Hpstem).
  assert (stem node_file = "openb_node_list_" +:+ mn) as ->
    by by destruct node_file.
  assert (stem pod_file = "openb_pod_list_" +:+ mp) as ->
    by by destruct pod_file.
  rewrite Hnname, Hpname. repeat split; intros Heq.
  - rewrite (string_app_assoc _ mn ".yaml") in Heq. symmetry in Heq.
    by apply output_name_not_input in Heq.
  - rewrite <- !string_app_assoc in Heq.
    by apply output_names_differ in Heq.
  - rewrite <- !string_app_assoc in Heq. symmetry in Heq.
    by apply output_names_differ in Heq.
  - rewrite (string_app_assoc _ mp ".yaml") in Heq. symmetry in Heq.
    by apply output_name_not_input in Heq.
  - rewrite <- !string_app_assoc in Heq.
    by apply output_names_differ in Heq.
Qed.

Lemma listed_elem file_name entries :
  file_name ∈ entries → listed file_name entries = entries.
Proof. intros Hin. unfold listed. by rewrite bool_decide_true. Qed.

Section Reruns.

Variable safe_load_all : string → outcome (list yaml).
Variable dump_all : list yaml → string.

(** X20: runs with different parameters leave their outputs side by side.
    After a run that returns, a second run on the same directory with
    modulus R' and skew bound S' that finds the same two input files
    returns too and writes its own two outputs; the machine output of the
    first run is still there when R' differs from R, and its workload
    output when S' differs from S. *)
Theorem runs_with_other_parameters_coexist (w : world) (input_dir : string)
    (R S R' S' : Z) (node_file pod_file : Path) (node_text pod_text : string)
    (nodes pods : list yaml) :
  head (glob input_dir "openb_node_list_" ".yaml" w) = Some node_file →
  head (glob input_dir "openb_pod_list_" ".yaml" w) = Some pod_file →
  fs_files (fs w) !! (parent node_file, name node_file) = Some node_text →
  safe_load_all node_text = Return nodes →
  fs_files (fs w) !! (parent pod_file, name pod_file) = Some pod_text →
  safe_load_all pod_text = Return pods →
  R ≠ 0 → R' ≠ 0 →
  Forall (λ node, machine_record node = true) nodes →
  Forall (λ pod, workload_record pod = true) pods →
  head (glob input_dir "openb_node_list_" ".yaml"
          (process_directory safe_load_all dump_all input_dir R S w).1)
  = Some node_file →
  head (glob input_dir "openb_pod_list_" ".yaml"
          (process_directory safe_load_all dump_all input_dir R S w).1)
  = Some pod_file →
  ∃ w2,
    process_directory safe_load_all dump_all input_dir R' S'
      (process_directory safe_load_all dump_all input_dir R S w).1
    = (w2, Return ()) ∧
    fs_files (fs w2)
      !! (input_dir,
          stem node_file +:+ "_with_rack-quantity" +:+ pretty R' +:+ ".yaml")
    = Some (dump_all (add_rack_labels nodes R').1) ∧
    fs_files (fs w2)
      !! (input_dir,
          stem pod_file +:+ "_with_skew-value" +:+ pretty S' +:+ ".yaml")
    = Some (dump_all
              (add_topology_constraints pods "topology.kubernetes.io/rack"
                 S' "ScheduleAnyway").1) ∧
    (R ≠ R' →
     fs_files (fs w2)
       !! (input_dir,
           stem node_file +:+ "_with_rack-quantity" +:+ pretty R +:+ ".yaml")
     = Some (dump_all (add_rack_labels nodes R).1)) ∧
    (S ≠ S' →
     fs_files (fs w2)
       !! (input_dir,
           stem pod_file +:+ "_with_skew-value" +:+ pretty S +:+ ".yaml")
     = Some (dump_all
               (add_topology_constraints pods "topology.kubernetes.io/rack"
                  S "ScheduleAnyway").1)).
Proof.
  intros Hnode Hpod Hnt Hnodes Hpt Hpods HR HR' Hmachines Hworkloads.
  destruct (label_nodes_ok 0 R nodes Hmachines HR) as (n1 & Hrack & _).
  destruct (label_nodes_ok 0 R' nodes Hmachines HR') as (n2 & Hrack' & _).
  destruct (constrain_pods_ok "topology.kubernetes.io/rack" S
              default_when_unsatisfiable pods Hworkloads) as (p1 & Hskew & _).
  destruct (constrain_pods_ok "topology.kubernetes.io/rack" S'
              default_when_unsatisfiable pods Hworkloads)
    as (p2 & Hskew' & _).
  fold (add_rack_labels nodes R) in Hrack.
  fold (add_rack_labels nodes R') in Hrack'.
  fold (add_topology_constraints pods "topology.kubernetes.io/rack" S
          default_when_unsatisfiable) in Hskew.
  fold (add_topology_constraints pods "topology.kubernetes.io/rack" S'
          default_when_unsatisfiable) in Hskew'.
  change "ScheduleAnyway" with default_when_unsatisfiable.
  rewrite Hrack, Hrack', Hskew, Hskew'. cbn [fst].
  destruct (glob_is_dir _ _ _ _ _ Hnode) as [entries Hdir].
  destruct (process_directory_ok_world safe_load_all dump_all w input_dir R S
              node_file pod_file node_text pod_text nodes pods n1 p1 entries
              Hdir Hnode Hpod Hnt Hnodes Hpt Hpods Hrack Hskew)
    as (out & Hrun).
  rewrite Hrun. cbn [fst]. intros Hnode1 Hpod1.
  destruct (glob_parent _ _ _ _ _ Hnode) as [Hnp Hnm].
  destruct (glob_parent _ _ _ _ _ Hpod) as [Hpp Hpm].
  destruct (names_apart node_file pod_file R S Hnm Hpm)
    as (Ha1 & Ha2 & Ha3 & Ha4 & Ha5).
  destruct (names_apart node_file pod_file R' S' Hnm Hpm)
    as (Hb1 & Hb2 & Hb3 & Hb4 & Hb5).
  destruct (names_apart node_file pod_file R S' Hnm Hpm)
    as (_ & _ & _ & _ & Hc5).
  destruct (names_apart node_file pod_file R' S Hnm Hpm)
    as (_ & _ & _ & _ & Hd5).
  match type of Hnode1 with
  | head (glob _ _ _ ?w1) = _ =>
      destruct (process_directory_ok_world safe_load_all dump_all w1
                  input_dir R' S' node_file pod_file node_text pod_text
                  nodes pods n2 p2 _
                  ltac:(cbn [fs fs_dirs]; apply lookup_insert_eq)
                  Hnode1 Hpod1) as (out2 & Hrun2); try done
  end.
  { cbn [fs fs_files]. rewrite !lookup_insert_ne; [done|..];
      rewrite Hnp; intros [= ?]; done. }
  { cbn [fs fs_files]. rewrite !lookup_insert_ne; [done|..];
      rewrite Hpp; intros [= ?]; done. }
  eexists. split; [exact Hrun2|]. cbn [fs fs_files].
  split; [|split; [|split]].
  - rewrite lookup_insert_ne, lookup_insert_eq; [done|].
    intros [= ?]. done.
  - by rewrite lookup_insert_eq.
  - intros Hne.
    rewrite lookup_insert_ne, lookup_insert_ne, lookup_insert_ne,
      lookup_insert_eq; [done|..]; intros [= Heq]; try done.
    by apply output_name_inj in Heq.
  - intros Hne.
    rewrite lookup_insert_ne, lookup_insert_ne, lookup_insert_eq;
      [done|..]; intros [= Heq]; try done.
    by apply output_name_inj in Heq.
Qed.

(** X21: running again with the same parameters changes nothing.  After a
    run that returns, a second run with the same modulus and skew bound
    that finds the same two input files returns and leaves the file system
    exactly as the first run left it: the outputs are overwritten with the
    same text and the directory lists the same names. *)
Theorem rerun_with_same_parameters (w : world) (input_dir : string)
    (R S : Z) (node_file pod_file : Path) (node_text pod_text : string)
    (nodes pods : list yaml) :
  head (glob input_dir "openb_node_list_" ".yaml" w) = Some node_file →
  head (glob input_dir "openb_pod_list_" ".yaml" w) = Some pod_file →
  fs_files (fs w) !! (parent node_file, name node_file) = Some node_text →
  safe_load_all node_text = Return nodes →
  fs_files (fs w) !! (parent pod_file, name pod_file) = Some pod_text →
  safe_load_all pod_text = Return pods →
  R ≠ 0 →
  Forall (λ node, machine_record node = true) nodes →
  Forall (λ pod, workload_record pod = true) pods →
  head (glob input_dir "openb_node_list_" ".yaml"
          (process_directory safe_load_all dump_all input_dir R S w).1)
  = Some node_file →
  head (glob input_dir "openb_pod_list_" ".yaml"
          (process_directory safe_load_all dump_all input_dir R S w).1)
  = Some pod_file →
  ∃ w2,
    process_directory safe_load_all dump_all input_dir R S
      (process_directory safe_load_all dump_all input_dir R S w).1
    = (w2, Return ()) ∧
    fs w2 = fs (process_directory safe_load_all dump_all input_dir R S w).1.
Proof.
  intros Hnode Hpod Hnt Hnodes Hpt Hpods HR Hmachines Hworkloads.
  destruct (label_nodes_ok 0 R nodes Hmachines HR) as (n1 & Hrack & _).
  destruct (constrain_pods_ok "topology.kubernetes.io/rack" S
              default_when_unsatisfiable pods Hworkloads) as (p1 & Hskew & _).
  fold (add_rack_labels nodes R) in Hrack.
  fold (add_topology_constraints pods "topology.kubernetes.io/rack" S
          default_when_unsatisfiable) in Hskew.
  destruct (glob_is_dir _ _ _ _ _ Hnode) as [entries Hdir].
  destruct (process_directory_ok_world safe_load_all dump_all w input_dir R S
              node_file pod_file node_text pod_text nodes pods n1 p1 entries
              Hdir Hnode Hpod Hnt Hnodes Hpt Hpods Hrack Hskew)
    as (out & Hrun).
  rewrite Hrun. cbn [fst]. intros Hnode1 Hpod1.
  destruct (glob_parent _ _ _ _ _ Hnode) as [Hnp Hnm].
  destruct (glob_parent _ _ _ _ _ Hpod) as [Hpp Hpm].
  destruct (names_apart node_file pod_file R S Hnm Hpm)
    as (Ha1 & Ha2 & Ha3 & Ha4 & Ha5).
  match type of Hnode1 with
  | head (glob _ _ _ ?w1) = _ =>
      destruct (process_directory_ok_world safe_load_all dump_all w1
                  input_dir R S node_file pod_file node_text pod_text
                  nodes pods n1 p1 _
                  ltac:(cbn [fs fs_dirs]; apply lookup_insert_eq)
                  Hnode1 Hpod1) as (out2 & Hrun2); try done
  end.
  { cbn [fs fs_files]. rewrite !lookup_insert_ne; [done|..];
      rewrite Hnp; intros [= ?]; done. }
  { cbn [fs fs_files]. rewrite !lookup_insert_ne; [done|..];
      rewrite Hpp; intros [= ?]; done. }
  eexists. split; [exact Hrun2|]. cbn [fs fs_files fs_dirs].
  set (node_out :=
         stem node_file +:+ "_with_rack-quantity" +:+ pretty R +:+ ".yaml").
  set (pod_out :=
         stem pod_file +:+ "_with_skew-value" +:+ pretty S +:+ ".yaml").
  rewrite (listed_elem node_out (listed pod_out (listed node_out entries)))
    by apply elem_of_listed_old, elem_of_listed_same.
  rewrite (listed_elem pod_out (listed pod_out (listed node_out entries)))
    by apply elem_of_listed_same.
  f_equal.
  - apply map_eq. intros dir.
    destruct (decide (dir = input_dir)) as [->|Hne].
    + by rewrite !lookup_insert_eq.
    + by rewrite !lookup_insert_ne.
  - apply map_eq. intros key.
    destruct (decide (key = (input_dir, pod_out))) as [->|Hne].
    + by rewrite !lookup_insert_eq.
    + rewrite (lookup_insert_ne _ (input_dir, pod_out)) by done.
      destruct (decide (key = (input_dir, node_out))) as [->|Hne'].
      * rewrite lookup_insert_eq.
        by rewrite lookup_insert_ne, lookup_insert_eq.
      * by rewrite !lookup_insert_ne.
Qed.

End Reruns.

Lemma runs_with_other_parameters_coexist_witness :
  (head (glob "data" "openb_node_list_" ".yaml" sample_world)
   = Some sample_node_file ∧
   head (glob "data" "openb_pod_list_" ".yaml" sample_world)
   = Some sample_pod_file ∧
   fs_files (fs sample_world)
     !! (parent sample_node_file, name sample_node_file) = Some "machines" ∧
   sample_load "machines" = Return sample_nodes ∧
   fs_files (fs sample_world)
     !! (parent sample_pod_file, name sample_pod_file) = Some "workloads" ∧
   sample_load "workloads" = Return sample_pods ∧
   2 ≠ 0 ∧ 5 ≠ 0 ∧
   Forall (λ node, machine_record node = true) sample_nodes ∧
   Forall (λ pod, workload_record pod = true) sample_pods ∧
   head (glob "data" "openb_node_list_" ".yaml"
           (process_directory sample_load sample_dump "data" 2 3
              sample_world).1) = Some sample_node_file ∧
   head (glob "data" "openb_pod_list_" ".yaml"
           (process_directory sample_load sample_dump "data" 2 3
              sample_world).1) = Some sample_pod_file) ∧
  ∃ w2,
    process_directory sample_load sample_dump "data" 5 1
      (process_directory sample_load sample_dump "data" 2 3 sample_world).1
    = (w2, Return ()) ∧
    fs_files (fs w2)
      !! ("data",
          stem sample_node_file +:+ "_with_rack-quantity" +:+ pretty 5
            +:+ ".yaml")
    = Some (sample_dump (add_rack_labels sample_nodes 5).1) ∧
    fs_files (fs w2)
      !! ("data",
          stem sample_pod_file +:+ "_with_skew-value" +:+ pretty 1
            +:+ ".yaml")
    = Some (sample_dump
              (add_topology_constraints sample_pods
                 "topology.kubernetes.io/rack" 1 "ScheduleAnyway").1) ∧
    (2 ≠ 5 →
     fs_files (fs w2)
       !! ("data",
           stem sample_node_file +:+ "_with_rack-quantity" +:+ pretty 2
             +:+ ".yaml")
     = Some (sample_dump (add_rack_labels sample_nodes 2).1)) ∧
    (3 ≠ 1 →
     fs_files (fs w2)
       !! ("data",
           stem sample_pod_file +:+ "_with_skew-value" +:+ pretty 3
             +:+ ".yaml")
     = Some (sample_dump
               (add_topology_constraints sample_pods
                  "topology.kubernetes.io/rack" 3 "ScheduleAnyway").1)).
Proof.
  split.
  { repeat split; try (vm_compute; reflexivity); try lia;
      repeat constructor. }
  apply (runs_with_other_parameters_coexist sample_load sample_dump
           sample_world "data" 2 3 5 1 sample_node_file sample_pod_file
           "machines" "workloads" sample_nodes sample_pods);
    try (vm_compute; reflexivity); try lia; repeat constructor.
Defined.

Lemma rerun_with_same_parameters_witness :
  (head (glob "data" "openb_node_list_" ".yaml" sample_world)
   = Some sample_node_file ∧
   head (glob "data" "openb_pod_list_" ".yaml" sample_world)
   = Some sample_pod_file ∧
   fs_files (fs sample_world)
     !! (parent sample_node_file, name sample_node_file) = Some "machines" ∧
   sample_load "machines" = Return sample_nodes ∧
   fs_files (fs sample_world)
     !! (parent sample_pod_file, name sample_pod_file) = Some "workloads" ∧
   sample_load "workloads" = Return sample_pods ∧
   2 ≠ 0 ∧
   Forall (λ node, machine_record node = true) sample_nodes ∧
   Forall (λ pod, workload_record pod = true) sample_pods ∧
   head (glob "data" "openb_node_list_" ".yaml"
           (process_directory sample_load sample_dump "data" 2 3
              sample_world).1) = Some sample_node_file ∧
   head (glob "data" "openb_pod_list_" ".yaml"
           (process_directory sample_load sample_dump "data" 2 3
              sample_world).1) = Some sample_pod_file) ∧
  ∃ w2,
    process_directory sample_load sample_dump "data" 2 3
      (process_directory sample_load sample_dump "data" 2 3 sample_world).1
    = (w2, Return ()) ∧
    fs w2
    = fs (process_directory sample_load sample_dump "data" 2 3
            sample_world).1.
Proof.
  split.
  { repeat split; try (vm_compute; reflexivity); try lia;
      repeat constructor. }
  apply (rerun_with_same_parameters sample_load sample_dump sample_world
           "data" 2 3 sample_node_file sample_pod_file "machines" "workloads"
           sample_nodes sample_pods);
    try (vm_compute; reflexivity); try lia; repeat constructor.
Defined.
